(** * RealtimeTTS FastAPI example: the audio-chunk pipeline

    A shallow embedding of the streaming pipeline of [example_fast_api]:
    - [client.py]: the receiving side [request_tts] and the playback loop
      [play_audio] that primes a byte buffer and writes frame-aligned
      blocks to the audio sink;
    - [server.py]: the semaphore-gated [/tts] endpoint, the synthesis worker
      [play_text_to_speech], the streaming generator
      [audio_chunk_generator], the endpoints that switch engine and voice,
      and the start-up of the engines;
    - [async_server.py]: the per-request [TTSRequestHandler] variant.

    Queues are modelled by the sequence of items that are ever put on them;
    [None] is the end-of-stream sentinel.  A [get] on an exhausted queue
    blocks for ever, which the models report as an explicit outcome. *)

From Stdlib Require Import ZArith Lia List Bool String Ascii.
From stdpp Require Import base option list gmap strings.

Local Open Scope nat_scope.

(** ** Byte strings *)

(** A Python [bytes] object. *)
Definition bytes := list Byte.byte.

(** An item travelling through a [Queue]: a chunk, or the sentinel [None]. *)
Definition item := option bytes.

(** The bytes literal [b"..."] of an ASCII string. *)
Definition b (s : string) : bytes := String.list_byte_of_string s.

(** * client.py *)

Module Client.

(** [pyaudio_instance.get_sample_size(pyaudio.paInt16)] *)
Definition sample_size_paInt16 : nat := 2.

(** [CHANNELS = 1] *)
Definition CHANNELS : nat := 1.

(** [frame_size = pyaudio_instance.get_sample_size(AUDIO_FORMAT) * CHANNELS] *)
Definition frame_size : nat := sample_size_paInt16 * CHANNELS.

(** [min_buffer_size = 1024 * 6] *)
Definition min_buffer_size : nat := 1024 * 6.

(** Outcome of a loop that reads from a queue. *)
Inductive outcome (A : Type) : Type :=
| Finished (a : A)      (* the loop was left *)
| Blocked (a : A)       (* [chunk_queue.get()] on a queue that stays empty *)
| OutOfFuel (a : A).    (* the model ran out of iterations *)
Arguments Finished {A} a.
Arguments Blocked {A} a.
Arguments OutOfFuel {A} a.

(** What one iteration of a [while True] loop does. *)
Inductive iteration (A : Type) : Type :=
| Again (a : A)         (* falls through to the next iteration *)
| Break (a : A)         (* [break] *)
| Waits (a : A).        (* stuck in [chunk_queue.get()] *)
Arguments Again {A} a.
Arguments Break {A} a.
Arguments Waits {A} a.

(** State of [play_audio]: the local [buffer], what is left of
    [chunk_queue], and the blocks handed to [stream.write] so far. *)
Record pstate : Type := PState {
  buffer : bytes;
  queue : list item;
  written : list bytes
}.

(** The priming loop:
<<
  while len(buffer) < min_buffer_size:
      chunk = chunk_queue.get()
      if chunk is None: break
      buffer += chunk
>>
    Every iteration takes one item, so the recursion is on the queue. *)
Fixpoint prime (min_size : nat) (buf : bytes) (q : list item)
  : outcome (bytes * list item) :=
  if length buf <? min_size then
    match q with
    | [] => Blocked (buf, [])
    | None :: q' => Finished (buf, q')
    | Some chunk :: q' => prime min_size (buf ++ chunk) q'
    end
  else Finished (buf, q).

(** The end-of-stream branch of the playback loop:
<<
  if len(buffer) > 0:
      if len(buffer) % frame_size != 0:
          buffer = buffer[:-(len(buffer) % frame_size)]
      stream.write(buffer)
  break
>>
    [truncate_to_frames] is the reassignment of [buffer]; [final_flush]
    is the whole branch up to the [break]. *)
Definition truncate_to_frames (fs : nat) (buf : bytes) : bytes :=
  if negb (length buf mod fs =? 0)
  then take (length buf - length buf mod fs) buf
  else buf.

Definition final_flush (fs : nat) (st : pstate) : pstate :=
  if 0 <? length (buffer st) then
    let buf := truncate_to_frames fs (buffer st) in
    PState buf (queue st) (written st ++ [buf])
  else st.

(** One iteration of the playback loop [while True: ...]. *)
Definition playback_step (fs : nat) (st : pstate) : iteration pstate :=
  if fs <=? length (buffer st) then
    let num_frames := length (buffer st) / fs in
    let bytes_to_write := num_frames * fs in
    Again (PState (drop bytes_to_write (buffer st))
                  (queue st)
                  (written st ++ [take bytes_to_write (buffer st)]))
  else
    match queue st with
    | [] => Waits st
    | None :: q' =>
        Break (final_flush fs (PState (buffer st) q' (written st)))
    | Some chunk :: q' =>
        Again (PState (buffer st ++ chunk) q' (written st))
    end.

(** The playback loop, iterated at most [fuel] times. *)
Fixpoint playback (fs : nat) (fuel : nat) (st : pstate) : outcome pstate :=
  match fuel with
  | 0 => OutOfFuel st
  | S fuel' =>
      match playback_step fs st with
      | Again st' => playback fs fuel' st'
      | Break st' => Finished st'
      | Waits st' => Blocked st'
      end
  end.

(** [play_audio] with frame size [fs] and priming threshold [min_size],
    run against the items [q] that the receiving thread puts on
    [chunk_queue]. *)
Definition play_audio_with (fs min_size fuel : nat) (q : list item)
  : outcome pstate :=
  match prime min_size [] q with
  | Finished (buf, q') => playback fs fuel (PState buf q' [])
  | Blocked (buf, q') => Blocked (PState buf q' [])
  | OutOfFuel (buf, q') => OutOfFuel (PState buf q' [])
  end.

(** [play_audio] as the client runs it. *)
Definition play_audio (fuel : nat) (q : list item) : outcome pstate :=
  play_audio_with frame_size min_buffer_size fuel q.

(** The state an outcome carries. *)
Definition state_of {A} (o : outcome A) : A :=
  match o with Finished a | Blocked a | OutOfFuel a => a end.

(** What [request_tts] puts on [chunk_queue]: every received chunk, then
    exactly one [None] (also on a request error). *)
Definition request_tts_items (chunks : list bytes) : list item :=
  map Some chunks ++ [None].

(** What [requests.get(SERVER_URL, ..., stream=True, timeout=10)] comes to:
    the call raises a [RequestException] (no connection, timeout), or it
    returns a response with a status code whose body arrives as blocks;
    [broken] says that [iter_content] raises a [RequestException] after
    the last of them. *)
Inductive exchange : Type :=
| NoResponse
| Response (status_code : nat) (content : list bytes) (broken : bool).

(** [response.raise_for_status()] raises for the codes 400 to 599. *)
Definition raise_for_status (status_code : nat) : bool :=
  (400 <=? status_code) && (status_code <? 600).

(** Truth value of a [bytes] object: it is not empty. *)
Definition truthy (chunk : bytes) : bool :=
  match chunk with [] => false | _ :: _ => true end.

(** What [request_tts] writes to: [chunk_queue] and, with [--write], the
    frames of [wav_file]. *)
Record rstate : Type := RState {
  chunk_queue : list item;
  wav_frames : list bytes
}.

Definition chunk_queue_put (x : item) (st : rstate) : rstate :=
  RState (chunk_queue st ++ [x]) (wav_frames st).

Definition writeframes (chunk : bytes) (st : rstate) : rstate :=
  RState (chunk_queue st) (wav_frames st ++ [chunk]).

(** The receiving loop:
<<
  for chunk in response.iter_content(chunk_size=None):
      if chunk:
          if write_to_file:
              wav_file.writeframes(chunk)
          chunk_queue.put(chunk)
>> *)
Fixpoint receive (write_to_file : bool) (content : list bytes) (st : rstate)
  : rstate :=
  match content with
  | [] => st
  | chunk :: content' =>
      receive write_to_file content'
        (if truthy chunk then
           chunk_queue_put (Some chunk)
             (if write_to_file then writeframes chunk st else st)
         else st)
  end.

(** [request_tts]:
<<
  try:
      response = requests.get(SERVER_URL, params={"text": text},
                              stream=True, timeout=10)
      response.raise_for_status()
      for chunk in response.iter_content(chunk_size=None): ...
      chunk_queue.put(None)
  except requests.exceptions.RequestException as e:
      print(...)
      chunk_queue.put(None)
>> *)
Definition request_tts (write_to_file : bool) (x : exchange) (st : rstate)
  : rstate :=
  match x with
  | NoResponse => chunk_queue_put None st                 (* except *)
  | Response status_code content broken =>
      if raise_for_status status_code
      then chunk_queue_put None st                        (* except *)
      else
        let st' := receive write_to_file content st in
        if broken
        then chunk_queue_put None st'                     (* except *)
        else chunk_queue_put None st'
  end.

(** The client from start to end: the receiving side fills the queue and
    the playback thread runs against it. *)
Definition client (write_to_file : bool) (x : exchange) (fuel : nat)
  : outcome pstate :=
  play_audio fuel (chunk_queue (request_tts write_to_file x (RState [] []))).

End Client.

(** * Python primitives shared by the two servers *)

Module Py.

(** Exceptions that the modelled code raises or lets through. *)
Inductive exn : Type :=
| Exception (msg : string)
| TypeError (msg : string)
| HTTPException (status_code : nat) (detail : string)
                (headers : list (string * string)).

Inductive result (A : Type) : Type :=
| Ok (a : A)
| Raise (e : exn).
Arguments Ok {A} a.
Arguments Raise {A} e.

(** Code that runs against a shared state [S] and may raise. *)
Definition M (S A : Type) : Type := S -> result A * S.

Definition ret {S A} (a : A) : M S A := fun s => (Ok a, s).

Definition bind {S A B} (m : M S A) (k : A -> M S B) : M S B :=
  fun s =>
    match m s with
    | (Ok a, s') => k a s'
    | (Raise e, s') => (Raise e, s')
    end.

Definition raise {S A} (e : exn) : M S A := fun s => (Raise e, s).

(** [try: body finally: cleanup].  The cleanup runs on both exits; an
    exception of the body is re-raised after it, unless the cleanup
    raises itself. *)
Definition try_finally {S A} (body : M S A) (cleanup : M S unit) : M S A :=
  fun s =>
    match body s with
    | (r, s') =>
        match cleanup s' with
        | (Ok _, s'') => (r, s'')
        | (Raise e, s'') => (Raise e, s'')
        end
    end.

Definition get {S} : M S S := fun s => (Ok s, s).
Definition modify {S} (f : S -> S) : M S unit := fun s => (Ok tt, f s).

(** Statements in sequence are written [c1;; c2] and [x ← c1; c2]. *)
#[global] Instance M_ret {S} : MRet (M S) := fun A a => ret a.
#[global] Instance M_bind {S} : MBind (M S) := fun A B k m => bind m k.

(** [for x in xs: body(x)] *)
Fixpoint for_each {S A} (xs : list A) (body : A -> M S unit) : M S unit :=
  match xs with
  | [] => ret tt
  | x :: xs' => body x;; for_each xs' body
  end.

(** ** [threading.Semaphore]

    The state of a semaphore is its counter [_value].
    [acquire(blocking=False)] takes a permit when the counter is positive
    and otherwise returns [False] at once, leaving the semaphore as it
    was; [release()] adds one permit. *)
Definition acquire_nonblocking (value : nat) : bool * nat :=
  match value with
  | 0 => (false, 0)
  | S v => (true, v)
  end.

Definition release (value : nat) : nat := S value.

(** ** [str.lower] and [in] on strings

    Header values reach the handlers decoded as Latin-1, one character
    per byte, which is what [ascii] holds. *)
Definition lower_ascii (c : ascii) : ascii :=
  let n := nat_of_ascii c in
  if ((65 <=? n) && (n <=? 90)) || ((192 <=? n) && (n <=? 222) && negb (n =? 215))
  then ascii_of_nat (n + 32)
  else c.

Fixpoint lower (s : string) : string :=
  match s with
  | EmptyString => EmptyString
  | String c s' => String (lower_ascii c) (lower s')
  end.

(** [sub in s] *)
Fixpoint contains (sub s : string) : bool :=
  String.prefix sub s ||
  match s with
  | EmptyString => false
  | String _ s' => contains sub s'
  end.

(** ** [struct.pack] with little-endian fields *)

Definition byte_of_Z (z : Z) : Byte.byte :=
  match Byte.of_N (Z.to_N (z mod 256)) with
  | Some x => x
  | None => Byte.x00
  end.

Definition Z_of_byte (x : Byte.byte) : Z := Z.of_N (Byte.to_N x).

(** [n] bytes of [z], least significant first. *)
Fixpoint le_bytes (n : nat) (z : Z) : bytes :=
  match n with
  | 0 => []
  | S n' => byte_of_Z z :: le_bytes n' (z / 256)
  end.

Fixpoint le_value (bs : bytes) : Z :=
  match bs with
  | [] => 0
  | x :: bs' => Z_of_byte x + 256 * le_value bs'
  end.

(** [struct.pack('<H', z)]: raises [struct.error] out of range. *)
Definition pack_H (z : Z) : option bytes :=
  if ((0 <=? z) && (z <? 2 ^ 16))%Z then Some (le_bytes 2 z) else None.

(** [struct.pack('<L', z)] *)
Definition pack_L (z : Z) : option bytes :=
  if ((0 <=? z) && (z <? 2 ^ 32))%Z then Some (le_bytes 4 z) else None.

(** ** The [wave] module: header of a file closed with no frames written

    [setnchannels], [setsampwidth] and [setframerate] check their
    arguments; closing the writer emits the 44-byte RIFF header with a
    data length of zero. *)
Definition WAVE_FORMAT_PCM : Z := 1.

Definition wave_header (nchannels sampwidth framerate : Z) : option bytes :=
  if negb (1 <=? nchannels)%Z then None                        (* setnchannels *)
  else if negb ((1 <=? sampwidth) && (sampwidth <=? 4))%Z then None (* setsampwidth *)
  else if (framerate <=? 0)%Z then None                        (* setframerate *)
  else
    let datalength := 0%Z in
    riff_len ← pack_L (36 + datalength);
    fmt_len ← pack_L 16;
    tag ← pack_H WAVE_FORMAT_PCM;
    nch ← pack_H nchannels;
    rate ← pack_L framerate;
    byte_rate ← pack_L (nchannels * framerate * sampwidth);
    block_align ← pack_H (nchannels * sampwidth);
    bits ← pack_H (sampwidth * 8);
    data_len ← pack_L datalength;
    Some (b "RIFF" ++ riff_len ++ b "WAVE" ++ b "fmt " ++ fmt_len ++ tag
            ++ nch ++ rate ++ byte_rate ++ block_align ++ bits
            ++ b "data" ++ data_len).

(** What a reader of the header finds declared in it. *)
Definition field (off len : nat) (hdr : bytes) : Z :=
  le_value (take len (drop off hdr)).

Definition declared_channels (hdr : bytes) : Z := field 22 2 hdr.
Definition declared_sample_rate (hdr : bytes) : Z := field 24 4 hdr.
Definition declared_sample_width (hdr : bytes) : Z := (field 34 2 hdr + 7) / 8.

End Py.

(** * What the two servers share *)

Module Common.
Import Py.

(** Modelled from the spec: the engine adapter, which lives in the
    RealtimeTTS library and not in this repository.  It has a name and
    reports its stream format, [getStreamInfo() -> (channels,
    sampleWidth, sampleRate)]. *)
Record engine : Type := Engine {
  engine_name : string;
  get_stream_info : Z * Z * Z
}.

Definition reported_channels (e : engine) : Z := (get_stream_info e).1.1.
Definition reported_sample_rate (e : engine) : Z := (get_stream_info e).2.

(** What the stream does with one text: [feed] may raise; playing hands
    the chunks to the callback one by one and may raise after them.
    [reports_stop] says whether the library calls the registered
    [on_audio_stream_stop] once the chunks are out. *)
Record synthesis : Type := Synthesis {
  feed_error : option exn;
  chunks : list bytes;
  play_error : option exn;
  reports_stop : bool
}.

(** The part of a request that the handlers read: the [user-agent]
    header, if present. *)
Record request : Type := Request { user_agent : option string }.

Definition BROWSER_IDENTIFIERS : list string :=
  ["mozilla"; "chrome"; "safari"; "firefox"; "edge"; "opera"; "msie";
   "trident"].

(** [is_browser_request]:
<<
  user_agent = request.headers.get("user-agent", "").lower()
  return any(browser_id in user_agent for browser_id in BROWSER_IDENTIFIERS)
>> *)
Definition is_browser_request (r : request) : bool :=
  let ua := lower (default EmptyString (user_agent r)) in
  existsb (fun browser_id => contains browser_id ua) BROWSER_IDENTIFIERS.

(** [create_wave_header_for_engine]: only the sample rate is taken from
    the engine, [_, _, sample_rate = engine.get_stream_info()]; the
    channel count and the sample width are the constants 1 and 2.
    [None] stands for an exception out of the [wave] module. *)
Definition create_wave_header_for_engine (e : engine) : option bytes :=
  let '(_, _, sample_rate) := get_stream_info e in
  let num_channels := 1%Z in
  let sample_width := 2%Z in
  let frame_rate := sample_rate in
  wave_header num_channels sample_width frame_rate.

(** What a streaming generator yields. *)
Inductive block : Type :=
| Header (h : bytes)    (* [yield create_wave_header_for_engine(...)] *)
| Chunk (c : bytes).    (* [yield chunk] *)

(** How a generator ends. *)
Inductive ending : Type :=
| Terminated (rest : list item) (* saw [None] and left the loop *)
| Failed                        (* an exception was caught and logged *)
| Starved.                      (* waits in [get()] on a queue that stays empty *)

(** The bytes of a block, as sent on the wire. *)
Definition block_bytes (x : block) : bytes :=
  match x with Header h => h | Chunk c => c end.

Definition is_header (x : block) : bool :=
  match x with Header _ => true | Chunk _ => false end.

(** The audio chunks among the blocks. *)
Definition chunks_of (xs : list block) : list bytes :=
  omap (fun x => match x with Chunk c => Some c | Header _ => None end) xs.

(** The loop of both generators, from the state [first_chunk]; whether a
    header is due at the first chunk is [emit_header].
<<
  while True:
      chunk = audio_queue.get()
      if chunk is None: break
      if not first_chunk:
          if <emit_header>:
              yield create_wave_header_for_engine(<engine>)
          first_chunk = True
      yield chunk
>>
    inside [try: ... except Exception as e: <log>]. *)
Fixpoint generator_loop (e : engine) (emit_header : bool)
    (first_chunk : bool) (q : list item) : list block * ending :=
  match q with
  | [] => ([], Starved)
  | None :: q' => ([], Terminated q')
  | Some chunk :: q' =>
      if negb first_chunk then
        if emit_header then
          match create_wave_header_for_engine e with
          | None => ([], Failed)
          | Some h =>
              let (ys, r) := generator_loop e emit_header true q' in
              (Header h :: Chunk chunk :: ys, r)
          end
        else
          let (ys, r) := generator_loop e emit_header true q' in
          (Chunk chunk :: ys, r)
      else
        let (ys, r) := generator_loop e emit_header true q' in
        (Chunk chunk :: ys, r)
  end.

(** The body of a [StreamingResponse]: the generator call it wraps, and
    the content type. *)
Record streaming_response : Type := StreamingResponse {
  body_queue : nat;
  body_send_wave_headers : bool;
  media_type : string
}.

End Common.

(** * server.py *)

Module Server.
Import Py Common.

(** A started thread: its target is always [play_text_to_speech]. *)
Inductive thread : Type :=
| Worker (text : string) (audio_queue : nat)
    (* [args=(stream, text, audio_queue)], from [/tts] *)
| WorkerNoQueue (text : string).
    (* [args=(stream, text)], from [/tts-text] *)

(** What happens, in order. *)
Inductive event : Type :=
| EvAcquire (ok : bool)
| EvRelease
| EvStart (t : thread)
| EvSpeaking (text : string) (status : bool)
| EvFeed (text : string)
| EvPut (audio_queue : nat) (x : item)
| EvPlayed.

(** The process state: the module globals, the [Queue] objects made so
    far (each one by the items put on it, oldest first), the threads
    that were started and have not finished, and the history. *)
Record world : Type := World {
  semaphore : nat;                      (* play_text_to_speech_semaphore *)
  current_speaking : gmap string bool;
  current_engine : engine;
  queues : list (list item);
  threads : list thread;
  trace : list event
}.

Definition log (ev : event) : M world unit :=
  modify (fun w => World (semaphore w) (current_speaking w)
                         (current_engine w) (queues w) (threads w)
                         (trace w ++ [ev])).

(** [play_text_to_speech_semaphore.acquire(blocking=False)] *)
Definition semaphore_acquire : M world bool :=
  fun w =>
    let (ok, v) := acquire_nonblocking (semaphore w) in
    (Ok ok, World v (current_speaking w) (current_engine w) (queues w)
                  (threads w) (trace w ++ [EvAcquire ok])).

(** [play_text_to_speech_semaphore.release()] *)
Definition semaphore_release : M world unit :=
  modify (fun w => World (release (semaphore w)) (current_speaking w)
                         (current_engine w) (queues w) (threads w) (trace w));;
  log EvRelease.

(** [set_speaking]: [current_speaking[text] = status] under the lock. *)
Definition set_speaking (text : string) (status : bool) : M world unit :=
  modify (fun w => World (semaphore w)
                         (<[text := status]> (current_speaking w))
                         (current_engine w) (queues w) (threads w) (trace w));;
  log (EvSpeaking text status).

(** [is_currently_speaking] *)
Definition is_currently_speaking (text : string) (w : world) : bool :=
  default false (current_speaking w !! text).

(** [Queue()]: a new, empty queue. *)
Definition new_queue : M world nat :=
  fun w => (Ok (length (queues w)),
            World (semaphore w) (current_speaking w) (current_engine w)
                  (queues w ++ [[]]) (threads w) (trace w)).

(** [audio_queue.put(x)] *)
Definition queue_put (audio_queue : nat) (x : item) : M world unit :=
  modify (fun w => World (semaphore w) (current_speaking w) (current_engine w)
                         (alter (fun q => q ++ [x]) audio_queue (queues w))
                         (threads w) (trace w));;
  log (EvPut audio_queue x).

(** [threading.Thread(target=..., args=..., daemon=True).start()] *)
Definition thread_start (t : thread) : M world unit :=
  modify (fun w => World (semaphore w) (current_speaking w) (current_engine w)
                         (queues w) (threads w ++ [t]) (trace w));;
  log (EvStart t).

(** [stream.feed(text)] *)
Definition stream_feed (syn : synthesis) (text : string) : M world unit :=
  log (EvFeed text);;
  match feed_error syn with
  | Some e => raise e
  | None => ret tt
  end.

(** [stream.play(on_audio_chunk=on_audio_chunk, muted=True)] *)
Definition stream_play (syn : synthesis) (on_audio_chunk : bytes -> M world unit)
  : M world unit :=
  for_each (chunks syn) on_audio_chunk;;
  match play_error syn with
  | Some e => raise e
  | None => log EvPlayed
  end.

(** [play_text_to_speech(stream, text, audio_queue)]:
<<
  set_speaking(text, True)
  def on_audio_chunk(chunk): audio_queue.put(chunk)
  try:
      stream.feed(text)
      stream.play(on_audio_chunk=on_audio_chunk, muted=True)
      audio_queue.put(None)
  finally:
      set_speaking(text, False)
      play_text_to_speech_semaphore.release()
>> *)
Definition play_text_to_speech (stream : synthesis) (text : string)
    (audio_queue : nat) : M world unit :=
  set_speaking text true;;
  let on_audio_chunk chunk := queue_put audio_queue (Some chunk) in
  try_finally
    (stream_feed stream text;;
     stream_play stream on_audio_chunk;;
     queue_put audio_queue None)
    (set_speaking text false;;
     semaphore_release).

(** [audio_chunk_generator(audio_queue, send_wave_headers)], run against
    the items of its queue; the header is due when
    [send_wave_headers and not current_engine.engine_name == "elevenlabs"].
    This is the block under [with gen_lock:], that is, a run of the
    generator once it has the lock; [audio_chunk_generator_with_lock]
    below is the function with its lock. *)
Definition audio_chunk_generator (current_engine : engine)
    (audio_queue : list item) (send_wave_headers : bool)
  : list block * ending :=
  generator_loop current_engine
    (send_wave_headers && negb (String.eqb (engine_name current_engine) "elevenlabs"))
    false audio_queue.

(** [gen_lock], the one lock that all generators of [server.py] share, as
    a generator finds it when it reaches [with gen_lock:].  [Free]: nobody
    holds it, or its holder leaves the [with] block, so that the generator
    gets it, at once or after a wait.  [HeldForEver]: its holder waits in
    [audio_queue.get()] for an item that is never put, and a thread that
    waits there is not interrupted. *)
Inductive lock : Type :=
| Free
| HeldForEver.

(** What a response receives from its generator: the blocks yielded and
    the way the loop ends, or nothing at all when the generator never
    gets past [with gen_lock:]. *)
Inductive delivery : Type :=
| Streams (ys : list block) (r : ending)
| WaitsForLock.

(** [audio_chunk_generator] as a whole:
<<
  def audio_chunk_generator(audio_queue, send_wave_headers):
      with gen_lock:
          first_chunk = False
          try:
              while True: ...
          except Exception as e:
              logging.error(...)
>>
    The result is paired with the lock as the next generator finds it: the
    [with] block gives the lock back when the loop is left, at the
    sentinel or through the [except] clause, and a generator that starves
    keeps it.  The client is taken to read the response to its end. *)
Definition audio_chunk_generator_with_lock (gen_lock : lock)
    (current_engine : engine) (audio_queue : list item)
    (send_wave_headers : bool) : delivery * lock :=
  match gen_lock with
  | HeldForEver => (WaitsForLock, HeldForEver)
  | Free =>
      let (ys, r) :=
        audio_chunk_generator current_engine audio_queue send_wave_headers in
      (Streams ys r,
       match r with
       | Starved => HeldForEver
       | _ => Free
       end)
  end.

(** The [/tts] endpoint:
<<
  browser_request = is_browser_request(request)
  audio_queue = Queue()
  if play_text_to_speech_semaphore.acquire(blocking=False):
      threading.Thread(target=play_text_to_speech,
                       args=(stream, text, audio_queue), daemon=True).start()
  else:
      raise HTTPException(status_code=503, detail=...,
                          headers={"Retry-After": "10"})
  return StreamingResponse(
      audio_chunk_generator(audio_queue, browser_request),
      media_type="audio/wav" if current_engine.engine_name != "elevenlabs"
                 else "audio/mpeg")
>> *)
Definition busy : exn :=
  HTTPException 503
    "Service unavailable, currently processing another request. Please try again shortly."
    [("Retry-After", "10")].

Definition tts (req : request) (text : string) : M world streaming_response :=
  let browser_request := is_browser_request req in
  audio_queue ← new_queue;
  ok ← semaphore_acquire;
  (if ok : bool then thread_start (Worker text audio_queue)
   else raise busy);;
  w ← get;
  ret (StreamingResponse audio_queue browser_request
         (if negb (String.eqb (engine_name (current_engine w)) "elevenlabs")
          then "audio/wav" else "audio/mpeg")).

(** The [/tts-text] endpoint takes the same permit.  Its thread gets two
    arguments where [play_text_to_speech] wants three, and its generator
    call lacks an argument, so the call raises. *)
Definition tts_text (req : request) (text : string) : M world streaming_response :=
  ok ← semaphore_acquire;
  (if ok : bool then thread_start (WorkerNoQueue text) else ret tt);;
  raise (TypeError "audio_chunk_generator() missing 1 required positional argument").

(** Running a started thread to its end. *)
Definition thread_body (stream : synthesis) (t : thread) : M world unit :=
  match t with
  | Worker text audio_queue => play_text_to_speech stream text audio_queue
  | WorkerNoQueue _ =>
      raise (TypeError "play_text_to_speech() missing 1 required positional argument")
  end.

Definition remove_thread (i : nat) (w : world) : world :=
  World (semaphore w) (current_speaking w) (current_engine w) (queues w)
        (delete i (threads w)) (trace w).

(** One move of the server: a request is handled, or a started thread
    runs to its end on whatever the stream does with its text.  A
    handler meets the other threads only in its one call of [acquire],
    and a worker only in its [release], which is its last action, so
    each is taken as one move; a thread counts as started from the move
    of its handler to its own. *)
Inductive step : world -> world -> Prop :=
| step_tts req text w :
    step w (tts req text w).2
| step_tts_text req text w :
    step w (tts_text req text w).2
| step_thread i t stream w :
    threads w !! i = Some t ->
    step w (remove_thread i (thread_body stream t w).2).

(** The server at start-up: [Semaphore(1)], nothing started. *)
Definition init (e : engine) : world := World 1 ∅ e [] [] [].

Definition reachable (e : engine) (w : world) : Prop := rtc step (init e) w.

(** The synthesis jobs in flight: threads that were started, have a queue
    to fill, and have not finished. *)
Definition is_job (t : thread) : bool :=
  match t with Worker _ _ => true | WorkerNoQueue _ => false end.

Definition in_flight (w : world) : nat :=
  length (List.filter is_job (threads w)).

End Server.
(** * async_server.py *)

Module AsyncServer.
Import Py Common.

(** A [TTSRequestHandler] object: its engine, the items put on its
    [audio_queue] so far, and its [speaking] flag.  Its [stream] is the
    library object whose behaviour is a [synthesis]. *)
Record handler : Type := Handler {
  engine_of : engine;
  audio_queue : list item;
  speaking : bool
}.

Inductive event : Type :=
| EvAcquire (ok : bool)
| EvRelease
| EvStart (self : nat) (text : string)
| EvSpeaking (self : nat) (status : bool)
| EvFeed (self : nat) (text : string)
| EvPlayAsync (self : nat)
| EvPut (self : nat) (x : item).

(** The process state: the globals, the handler objects made so far,
    the started threads that have not run [play_text_to_speech] yet
    (handler and text), the playbacks that [play_async] has set off and
    that have not ended, and the history. *)
Record world : Type := World {
  semaphore : nat;                      (* play_text_to_speech_semaphore *)
  current_engine : engine;
  handlers : list handler;
  threads : list (nat * string);
  playing : list (nat * synthesis);
  trace : list event
}.

Definition log (ev : event) : M world unit :=
  modify (fun w => World (semaphore w) (current_engine w) (handlers w)
                         (threads w) (playing w) (trace w ++ [ev])).

Definition update_handler (self : nat) (f : handler -> handler) : M world unit :=
  modify (fun w => World (semaphore w) (current_engine w)
                         (alter f self (handlers w))
                         (threads w) (playing w) (trace w)).

(** [play_text_to_speech_semaphore.acquire(blocking=False)] *)
Definition semaphore_acquire : M world bool :=
  fun w =>
    let (ok, v) := acquire_nonblocking (semaphore w) in
    (Ok ok, World v (current_engine w) (handlers w) (threads w) (playing w)
                  (trace w ++ [EvAcquire ok])).

(** [play_text_to_speech_semaphore.release()] *)
Definition semaphore_release : M world unit :=
  modify (fun w => World (release (semaphore w)) (current_engine w)
                         (handlers w) (threads w) (playing w) (trace w));;
  log EvRelease.

(** [TTSRequestHandler(engine)]: [__init__] makes the queue and the
    stream and sets [speaking = False]. *)
Definition new_handler (e : engine) : M world nat :=
  fun w => (Ok (length (handlers w)),
            World (semaphore w) (current_engine w)
                  (handlers w ++ [Handler e [] false])
                  (threads w) (playing w) (trace w)).

(** [self.audio_queue.put(x)] *)
Definition queue_put (self : nat) (x : item) : M world unit :=
  update_handler self
    (fun h => Handler (engine_of h) (audio_queue h ++ [x]) (speaking h));;
  log (EvPut self x).

(** [self.speaking = status] *)
Definition set_speaking (self : nat) (status : bool) : M world unit :=
  update_handler self
    (fun h => Handler (engine_of h) (audio_queue h) status);;
  log (EvSpeaking self status).

(** [on_audio_chunk(self, chunk)] *)
Definition on_audio_chunk (self : nat) (chunk : bytes) : M world unit :=
  queue_put self (Some chunk).

(** [on_audio_stream_stop(self)]:
<<
  self.audio_queue.put(None)
  self.speaking = False
>> *)
Definition on_audio_stream_stop (self : nat) : M world unit :=
  queue_put self None;;
  set_speaking self false.

(** [self.stream.feed(text)] *)
Definition stream_feed (syn : synthesis) (self : nat) (text : string)
  : M world unit :=
  log (EvFeed self text);;
  match feed_error syn with
  | Some e => raise e
  | None => ret tt
  end.

(** [self.stream.play_async(on_audio_chunk=self.on_audio_chunk, muted=True)]
    returns at once; the playback goes on in a thread of the library. *)
Definition stream_play_async (syn : synthesis) (self : nat) : M world unit :=
  modify (fun w => World (semaphore w) (current_engine w) (handlers w)
                         (threads w) (playing w ++ [(self, syn)]) (trace w));;
  log (EvPlayAsync self).

(** [play_text_to_speech(self, text)]:
<<
  self.speaking = True
  self.stream.feed(text)
  self.stream.play_async(on_audio_chunk=self.on_audio_chunk, muted=True)
>> *)
Definition play_text_to_speech (stream : synthesis) (self : nat)
    (text : string) : M world unit :=
  set_speaking self true;;
  stream_feed stream self text;;
  stream_play_async stream self.

(** The playback that [play_async] set off: the library calls
    [on_audio_chunk] for every chunk, and [on_audio_stream_stop] when it
    reports the stop of the stream. *)
Definition playback (syn : synthesis) (self : nat) : M world unit :=
  for_each (chunks syn) (on_audio_chunk self);;
  match play_error syn with
  | Some e => raise e
  | None => if reports_stop syn then on_audio_stream_stop self else ret tt
  end.

(** [audio_chunk_generator(self, send_wave_headers)], run against the
    items of the handler's queue; the header is due when
    [send_wave_headers] holds, whatever the engine. *)
Definition audio_chunk_generator (self : handler) (send_wave_headers : bool)
  : list block * ending :=
  generator_loop (engine_of self) send_wave_headers false (audio_queue self).

(** The [/tts] endpoint:
<<
  with tts_lock:
      request_handler = TTSRequestHandler(current_engine)
      browser_request = is_browser_request(request)
      if play_text_to_speech_semaphore.acquire(blocking=False):
          try:
              threading.Thread(target=request_handler.play_text_to_speech,
                               args=(text,), daemon=True).start()
          finally:
              play_text_to_speech_semaphore.release()
      return StreamingResponse(
          request_handler.audio_chunk_generator(browser_request),
          media_type="audio/wav")
>> *)
Definition thread_start (self : nat) (text : string) : M world unit :=
  modify (fun w => World (semaphore w) (current_engine w) (handlers w)
                         (threads w ++ [(self, text)]) (playing w) (trace w));;
  log (EvStart self text).

Definition tts (req : request) (text : string) : M world streaming_response :=
  w ← get;
  request_handler ← new_handler (current_engine w);
  let browser_request := is_browser_request req in
  ok ← semaphore_acquire;
  (if ok : bool
   then try_finally (thread_start request_handler text) semaphore_release
   else ret tt);;
  ret (StreamingResponse request_handler browser_request "audio/wav").

Definition remove_thread (i : nat) (w : world) : world :=
  World (semaphore w) (current_engine w) (handlers w)
        (delete i (threads w)) (playing w) (trace w).

Definition remove_playing (i : nat) (w : world) : world :=
  World (semaphore w) (current_engine w) (handlers w)
        (threads w) (delete i (playing w)) (trace w).

(** One move of the server: a request is handled (the whole handler runs
    under [tts_lock]), a started thread runs [play_text_to_speech], or a
    playback comes to its end. *)
Inductive step : world -> world -> Prop :=
| step_tts req text w :
    step w (tts req text w).2
| step_thread i self text stream w :
    threads w !! i = Some (self, text) ->
    step w (remove_thread i (play_text_to_speech stream self text w).2)
| step_playback i self stream w :
    playing w !! i = Some (self, stream) ->
    step w (remove_playing i (playback stream self w).2).

Definition init (e : engine) : world := World 1 e [] [] [] [].

Definition reachable (e : engine) (w : world) : Prop := rtc step (init e) w.

(** The synthesis jobs in flight: started and not yet at the end of
    their playback. *)
Definition in_flight (w : world) : nat :=
  length (threads w) + length (playing w).

End AsyncServer.

(** * Engines and voices (server.py) *)

Module Registry.
Import Py Common.

(** What the library does when asked: whether building a
    [TextToAudioStream] on an engine or loading the engine into the stream
    raises, whether [set_voice] raises, and what [get_voices] returns
    ([None] when it raises).  Engines are named by their key in
    [engines]. *)
Record library : Type := Library {
  stream_raises : string -> bool;
  set_voice_raises : string -> string -> bool;
  get_voices_of : string -> option (list string)
}.

(** The module globals [engines], [voices], [current_engine] and
    [stream]; an engine object is referred to by its key, a voice object
    by its [name]; [stream] is the key of the engine it holds; [voice] is
    the voice last set on each engine. *)
Record state : Type := State {
  engines : gmap string engine;
  voices : gmap string (list string);
  current_engine : option string;
  stream : option string;
  voice : gmap string string
}.

(** What an endpoint returns: [{"error": msg}] or [{"message": msg}]. *)
Inductive reply : Type :=
| error (msg : string)
| message (msg : string).

Definition KeyError (key : string) : exn := Exception ("KeyError: " ++ key).
Definition AttributeError : exn :=
  Exception "AttributeError: 'NoneType' object has no attribute".
Definition LibraryError : exn := Exception "raised by the library".

(** [engines[engine_name]] *)
Definition engines_getitem (engine_name : string) : M state engine :=
  st ← get;
  match engines st !! engine_name with
  | Some e => ret e
  | None => raise (KeyError engine_name)
  end.

(** [voices[engine_name]] *)
Definition voices_getitem (engine_name : string) : M state (list string) :=
  st ← get;
  match voices st !! engine_name with
  | Some vs => ret vs
  | None => raise (KeyError engine_name)
  end.

Definition set_current_engine (engine_name : string) : M state unit :=
  modify (fun st => State (engines st) (voices st) (Some engine_name)
                          (stream st) (voice st)).

(** [stream = TextToAudioStream(current_engine, muted=True)] and
    [stream.load_engine(current_engine)] *)
Definition stream_holds (lib : library) (engine_name : string) : M state unit :=
  if stream_raises lib engine_name then raise LibraryError
  else modify (fun st => State (engines st) (voices st) (current_engine st)
                               (Some engine_name) (voice st)).

(** [engine.set_voice(voice_name)] on the engine with key [engine_name] *)
Definition engine_set_voice (lib : library) (engine_name voice_name : string)
  : M state unit :=
  if set_voice_raises lib engine_name voice_name then raise LibraryError
  else modify (fun st => State (engines st) (voices st) (current_engine st)
                               (stream st)
                               (<[engine_name := voice_name]> (voice st))).

(** [_set_engine]:
<<
  if current_engine is None:
      current_engine = engines[engine_name]
      stream = TextToAudioStream(current_engine, muted=True)
  else:
      current_engine = engines[engine_name]
      stream.load_engine(current_engine)
  if voices[engine_name]:
      engines[engine_name].set_voice(voices[engine_name][0].name)
>> *)
Definition _set_engine (lib : library) (engine_name : string) : M state unit :=
  st ← get;
  (match current_engine st with
   | None =>
       engines_getitem engine_name;;
       set_current_engine engine_name;;
       stream_holds lib engine_name
   | Some _ =>
       engines_getitem engine_name;;
       set_current_engine engine_name;;
       match stream st with
       | None => raise AttributeError
       | Some _ => stream_holds lib engine_name
       end
   end);;
  vs ← voices_getitem engine_name;
  match vs : list string with
  | [] => ret tt
  | first :: _ =>
      engines_getitem engine_name;;
      engine_set_voice lib engine_name first
  end.

(** The endpoint [/set_engine]:
<<
  if engine_name not in engines:
      return {"error": "引擎不支持"}
  try:
      _set_engine(engine_name)
      return {"message": f"切换到 {engine_name} 引擎"}
  except Exception as e:
      return {"error": "切换引擎失败"}
>> *)
Definition set_engine (lib : library) (engine_name : string) (st : state)
  : reply * state :=
  match engines st !! engine_name with
  | None => (error "引擎不支持", st)
  | Some _ =>
      match _set_engine lib engine_name st with
      | (Ok _, st') => (message ("切换到 " ++ engine_name ++ " 引擎"), st')
      | (Raise _, st') => (error "切换引擎失败", st')
      end
  end.

(** The endpoint [/setvoice]:
<<
  if not current_engine:
      return {"error": "No engine is currently selected"}
  try:
      current_engine.set_voice(voice_name)
      return {"message": f"Voice set to {voice_name} successfully"}
  except Exception as e:
      return {"error": "Failed to set voice"}
>> *)
Definition set_voice (lib : library) (voice_name : string) (st : state)
  : reply * state :=
  match current_engine st with
  | None => (error "No engine is currently selected", st)
  | Some engine_name =>
      match engine_set_voice lib engine_name voice_name st with
      | (Ok _, st') =>
          (message ("Voice set to " ++ voice_name ++ " successfully"), st')
      | (Raise _, st') => (error "Failed to set voice", st')
      end
  end.

(** The endpoint [/voices]:
<<
  voices_list = []
  for voice in voices[current_engine.engine_name]:
      voices_list.append(voice.name)
  return voices_list
>>
    The key is the [engine_name] attribute of the engine object. *)
Definition get_voices : M state (list string) :=
  st ← get;
  match current_engine st with
  | None => raise AttributeError
  | Some key =>
      e ← engines_getitem key;
      voices_getitem (engine_name e)
  end.

(** ** Start-up *)

Definition SUPPORTED_ENGINES : list string :=
  ["azure"; "openai"; "elevenlabs"; "system"; "coqui"; "kokoro"].

(** [START_ENGINE = SUPPORTED_ENGINES[0]] *)
Definition START_ENGINE : string := List.hd EmptyString SUPPORTED_ENGINES.

(** Truth value of [os.environ.get(name)]: set and not empty. *)
Definition environ_truthy (environ : gmap string string) (name : string) : bool :=
  match environ !! name with
  | Some (String _ _) => true
  | _ => false
  end.

(** One round of the loop [for engine_name in SUPPORTED_ENGINES]; the
    constructors of the library are [construct]. *)
Definition initialize_engine (environ : gmap string string)
    (construct : string -> engine) (engines : gmap string engine)
    (engine_name : string) : gmap string engine :=
  let engines :=
    if String.eqb "azure" engine_name then
      if environ_truthy environ "AZURE_SPEECH_KEY"
         && environ_truthy environ "AZURE_SPEECH_REGION"
      then <["azure" := construct "azure"]> engines else engines
    else engines in
  let engines :=
    if String.eqb "elevenlabs" engine_name then
      if environ_truthy environ "ELEVENLABS_API_KEY"
      then <["elevenlabs" := construct "elevenlabs"]> engines else engines
    else engines in
  let engines :=
    if String.eqb "system" engine_name
    then <["system" := construct "system"]> engines else engines in
  let engines :=
    if String.eqb "coqui" engine_name
    then <["coqui" := construct "coqui"]> engines else engines in
  let engines :=
    if String.eqb "kokoro" engine_name
    then <["kokoro" := construct "kokoro"]> engines else engines in
  if String.eqb "openai" engine_name
  then <["openai" := construct "openai"]> engines else engines.

(** The loop over [engines.keys()]:
<<
  try:
      voices[_engine] = engines[_engine].get_voices()
  except Exception as e:
      voices[_engine] = []
>> *)
Definition retrieve_voices (lib : library) (engines : gmap string engine)
  : gmap string (list string) :=
  map_imap (fun key _ => Some (default [] (get_voices_of lib key))) engines.

(** The main block: the engines, their voices, then
    [_set_engine(START_ENGINE)]. *)
Definition startup (lib : library) (environ : gmap string string)
    (construct : string -> engine) : result unit * state :=
  let engines := foldl (initialize_engine environ construct) ∅ SUPPORTED_ENGINES in
  let voices := retrieve_voices lib engines in
  _set_engine lib START_ENGINE (State engines voices None None ∅).

End Registry.

(** * Vocabulary of the statements *)

(** The items of a stream of chunks: the chunks in push order, the
    sentinel, and whatever is put on the queue after it. *)
Definition stream_items (cs : list bytes) (rest : list item) : list item :=
  map Some cs ++ None :: rest.

(** The engine reports a sample rate for which the [wave] module builds a
    16-bit mono header: positive, with a byte rate that fits 32 bits. *)
Definition wave_rate (e : Common.engine) : Prop :=
  (0 < Common.reported_sample_rate e < 2 ^ 31)%Z.

(** The header blocks at the front of an output, if one is due. *)
Definition header_blocks (due : bool) (h : bytes) (cs : list bytes)
  : list Common.block :=
  match cs with
  | [] => []
  | _ :: _ => if due then [Common.Header h] else []
  end.

(** The number of headers in an output. *)
Definition header_count (ys : list Common.block) : nat :=
  length (List.filter Common.is_header ys).

(** When the server module asks for a header at the first chunk. *)
Definition server_header_due (e : Common.engine) (send_wave_headers : bool) : bool :=
  send_wave_headers && negb (String.eqb (Common.engine_name e) "elevenlabs").

(** A block is frame-aligned when its length is a multiple of the frame
    size [fs]. *)
Definition aligned (fs : nat) (w : bytes) : Prop := length w mod fs = 0.

(** The scenario of the specification: chunks [b"AAAA"] and [b"BB"], then
    the sentinel. *)
Definition scenario_AAAA_BB : list item := [Some (b "AAAA"); Some (b "BB"); None].

(** An engine that puts out 32-bit samples at 24 kHz, one channel. *)
Definition engine_float32 : Common.engine := Common.Engine "coqui" (1, 4, 24000)%Z.

(** An engine with 16-bit samples at 16 kHz, one channel. *)
Definition engine_pcm16 : Common.engine := Common.Engine "azure" (1, 2, 16000)%Z.

(** The engine whose output is an MPEG stream. *)
Definition engine_mpeg : Common.engine := Common.Engine "elevenlabs" (1, 2, 44100)%Z.

(** An engine that reports a sample rate of 0. *)
Definition engine_rate0 : Common.engine := Common.Engine "system" (1, 2, 0)%Z.

(** A browser and a programmatic client. *)
Definition browser : Common.request :=
  Common.Request (Some "Mozilla/5.0 (X11; Linux x86_64) Firefox/128.0").
Definition script : Common.request :=
  Common.Request (Some "python-requests/2.32").

(** A stream whose [feed] raises. *)
Definition feed_fails : Common.synthesis :=
  Common.Synthesis (Some (Py.Exception "feed failed")) [] None true.

(** A stream that raises while playing, after one chunk. *)
Definition play_fails : Common.synthesis :=
  Common.Synthesis None [b "AAAA"] (Some (Py.Exception "engine failed")) true.

(** A stream that plays two chunks to the end. *)
Definition plays_two : Common.synthesis :=
  Common.Synthesis None [b "AAAA"; b "BB"] None true.

(** The items that a run of the worker of [server.py] puts on its queue:
    nothing when [feed] raises, the chunks when [play] raises after them,
    and the chunks and the sentinel on a clean run. *)
Definition worker_puts (syn : Common.synthesis) : list item :=
  match Common.feed_error syn with
  | Some _ => []
  | None =>
      map Some (Common.chunks syn) ++
      match Common.play_error syn with Some _ => [] | None => [None] end
  end.

(** What that run returns or raises. *)
Definition worker_result (syn : Common.synthesis) : Py.result unit :=
  match Common.feed_error syn with
  | Some e => Py.Raise e
  | None =>
      match Common.play_error syn with
      | Some e => Py.Raise e
      | None => Py.Ok tt
      end
  end.

(** The history of that run between [stream.feed] and the [finally]
    block. *)
Definition worker_events (syn : Common.synthesis) (text : string)
    (audio_queue : nat) : list Server.event :=
  Server.EvFeed text ::
  match Common.feed_error syn with
  | Some _ => []
  | None =>
      map (fun c => Server.EvPut audio_queue (Some c)) (Common.chunks syn) ++
      match Common.play_error syn with
      | Some _ => []
      | None => [Server.EvPlayed; Server.EvPut audio_queue None]
      end
  end.

(** The gate invariant of [server.py]: permits and started threads add up
    to at most one. *)
Definition gate_inv (w : Server.world) : Prop :=
  Server.semaphore w + length (Server.threads w) <= 1.

(** [n] calls of [acquire(blocking=False)] in a row, with no release in
    between: what each returns, and the counter at the end. *)
Fixpoint attempts (n : nat) (value : nat) : list bool * nat :=
  match n with
  | 0 => ([], value)
  | S n' =>
      let (ok, v) := Py.acquire_nonblocking value in
      let (oks, v') := attempts n' v in
      (ok :: oks, v')
  end.

(** The chunks on a queue ahead of the first sentinel. *)
Fixpoint before_sentinel (q : list item) : list bytes :=
  match q with
  | Some c :: q' => c :: before_sentinel q'
  | _ => []
  end.

(** [/tts] of [server.py] called for each request in turn, with no other
    move of the server in between: what each call returns or raises. *)
Fixpoint serve (rs : list (Common.request * string)) (w : Server.world)
  : list (Py.result Common.streaming_response) :=
  match rs with
  | [] => []
  | (req, text) :: rs' =>
      let (r, w') := Server.tts req text w in r :: serve rs' w'
  end.


(** The bytes of the chunks on a queue, in order. *)
Definition payload (q : list item) : bytes := concat (omap id q).

(** The body of an exchange that the client accepts: nothing when there is
    no response or the status is an error. *)
Definition accepted_body (x : Client.exchange) : list bytes :=
  match x with
  | Client.NoResponse => []
  | Client.Response status_code content _ =>
      if Client.raise_for_status status_code then [] else content
  end.

(** * Properties of the client playback loop *)

Section ClientPlayback.
Import Client.

Variable fs : nat.
Hypothesis fs_pos : 0 < fs.

Lemma aligned_steady_write (buf : bytes) :
  aligned fs (take (length buf / fs * fs) buf).
Proof using fs_pos.
  unfold aligned. rewrite length_take.
  assert (length buf / fs * fs <= length buf).
  { rewrite Nat.mul_comm. apply Nat.Div0.mul_div_le. }
  rewrite Nat.min_l by assumption.
  apply Nat.Div0.mod_mul.
Qed.

Lemma truncate_to_frames_length (buf : bytes) :
  length (truncate_to_frames fs buf) = fs * (length buf / fs).
Proof using fs_pos.
  unfold truncate_to_frames.
  pose proof (Nat.div_mod_eq (length buf) fs) as E.
  destruct (length buf mod fs =? 0) eqn:Hm; simpl.
  - apply Nat.eqb_eq in Hm. lia.
  - rewrite length_take. lia.
Qed.

Lemma truncate_to_frames_split (buf : bytes) :
  buf = truncate_to_frames fs buf ++ drop (fs * (length buf / fs)) buf.
Proof using fs_pos.
  unfold truncate_to_frames.
  pose proof (Nat.div_mod_eq (length buf) fs) as E.
  destruct (length buf mod fs =? 0) eqn:Hm; simpl.
  - apply Nat.eqb_eq in Hm.
    rewrite drop_ge by lia. now rewrite app_nil_r.
  - replace (length buf - length buf mod fs) with (fs * (length buf / fs)) by lia.
    now rewrite take_drop.
Qed.

Lemma aligned_truncate (buf : bytes) : aligned fs (truncate_to_frames fs buf).
Proof using fs_pos.
  unfold aligned. rewrite truncate_to_frames_length, Nat.mul_comm.
  apply Nat.Div0.mod_mul.
Qed.

Lemma final_flush_aligned (st : pstate) :
  Forall (aligned fs) (written st) -> Forall (aligned fs) (written (final_flush fs st)).
Proof using fs_pos.
  intros H. unfold final_flush.
  destruct (0 <? length (buffer st)); simpl; [|assumption].
  apply Forall_app; split; [assumption|].
  constructor; [apply aligned_truncate | constructor].
Qed.

Lemma playback_step_aligned (st : pstate) :
  Forall (aligned fs) (written st) ->
  match playback_step fs st with
  | Again st' | Break st' | Waits st' => Forall (aligned fs) (written st')
  end.
Proof using fs_pos.
  intros H. unfold playback_step.
  destruct (fs <=? length (buffer st)).
  - simpl. apply Forall_app; split; [assumption|].
    constructor; [apply aligned_steady_write | constructor].
  - destruct (queue st) as [|[chunk|] q']; simpl; try assumption.
    now apply final_flush_aligned.
Qed.

Lemma playback_aligned (fuel : nat) : forall st,
  Forall (aligned fs) (written st) ->
  Forall (aligned fs) (written (state_of (playback fs fuel st))).
Proof using fs_pos.
  induction fuel as [|fuel IH]; intros st H; simpl; [assumption|].
  pose proof (playback_step_aligned st H) as Hs.
  destruct (playback_step fs st); simpl; auto.
Qed.

Lemma play_audio_with_aligned (min_size fuel : nat) (q : list item) :
  Forall (aligned fs) (written (state_of (play_audio_with fs min_size fuel q))).
Proof using fs_pos.
  unfold play_audio_with.
  destruct (prime min_size [] q) as [[buf q']|[buf q']|[buf q']]; simpl;
    try constructor.
  apply playback_aligned. constructor.
Qed.

(** The end-of-stream branch: the buffer splits into what is written
    and what is dropped. *)
Lemma final_flush_spec (st : pstate) :
  exists flushed dropped,
    buffer st = flushed ++ dropped /\
    length flushed = fs * (length (buffer st) / fs) /\
    length dropped < fs /\
    buffer (final_flush fs st) = flushed /\
    written (final_flush fs st) =
      written st ++ (if 0 <? length (buffer st) then [flushed] else []).
Proof using fs_pos.
  exists (truncate_to_frames fs (buffer st)),
         (drop (fs * (length (buffer st) / fs)) (buffer st)).
  split; [apply truncate_to_frames_split|].
  split; [apply truncate_to_frames_length|].
  split.
  { rewrite length_drop.
    pose proof (Nat.div_mod_eq (length (buffer st)) fs).
    pose proof (Nat.mod_upper_bound (length (buffer st)) fs). lia. }
  unfold final_flush.
  destruct (0 <? length (buffer st)) eqn:Hl; simpl; [split; reflexivity|].
  apply Nat.ltb_ge in Hl.
  assert (buffer st = []) as -> by (destruct (buffer st); simpl in *; [easy|lia]).
  split; [|now rewrite app_nil_r].
  unfold truncate_to_frames. simpl. rewrite Nat.Div0.mod_0_l. reflexivity.
Qed.

End ClientPlayback.

(** ** The claims on the playback loop *)

(** C8: every block that [play_audio] hands to the sink has a length that
    is a whole multiple of the frame size, whatever arrives on the queue
    and however long the loop runs; and the end-of-stream flush keeps the
    longest prefix of the buffer that is a whole number of frames, so that
    it drops fewer bytes than one frame. *)
Theorem play_audio_frame_aligned (fs min_size fuel : nat) (q : list item)
    (st : Client.pstate) :
  0 < fs ->
  Forall (fun w => length w mod fs = 0)
         (Client.written (Client.state_of (Client.play_audio_with fs min_size fuel q)))
  /\ exists flushed dropped,
       Client.buffer st = flushed ++ dropped /\
       length flushed = fs * (length (Client.buffer st) / fs) /\
       length dropped < fs /\
       Client.written (Client.final_flush fs st) =
         Client.written st ++
           (if 0 <? length (Client.buffer st) then [flushed] else []).
Proof.
  intros Hfs. split.
  - apply play_audio_with_aligned; assumption.
  - destruct (final_flush_spec fs Hfs st) as (f & d & H1 & H2 & H3 & _ & H5).
    exists f, d. auto.
Qed.

Lemma play_audio_frame_aligned_witness :
  Forall (fun w => length w mod 2 = 0)
         (Client.written (Client.state_of
            (Client.play_audio 5 [Some (b "AAAAA"); None])))
  /\ exists flushed dropped,
       b "AAAAA" = flushed ++ dropped /\
       length flushed = 2 * (5 / 2) /\
       length dropped < 2 /\
       Client.written (Client.final_flush 2 (Client.PState (b "AAAAA") [] [])) =
         [flushed].
Proof.
  apply (play_audio_frame_aligned 2 Client.min_buffer_size 5
           [Some (b "AAAAA"); None] (Client.PState (b "AAAAA") [] [])).
  lia.
Defined.

Section ClientSentinel.
Import Client.

(** Priming on a stream that stays below the threshold takes every
    chunk and the sentinel. *)
Lemma prime_short (min_size : nat) (cs : list bytes) : forall buf,
  length (buf ++ concat cs) < min_size ->
  prime min_size buf (request_tts_items cs) = Finished (buf ++ concat cs, []).
Proof.
  unfold request_tts_items.
  induction cs as [|c cs IH]; intros buf H; simpl in *.
  - rewrite app_nil_r in *.
    apply Nat.ltb_lt in H. now rewrite H.
  - assert (length buf < min_size) as Hb.
    { rewrite !length_app in H. lia. }
    apply Nat.ltb_lt in Hb. rewrite Hb.
    rewrite IH; rewrite <- app_assoc; [reflexivity | assumption].
Qed.

(** Once the queue is exhausted the loop writes what is aligned, at most
    once, and then waits. *)
Lemma playback_exhausted (fs : nat) (buf : bytes) (fuel : nat) :
  0 < fs ->
  playback fs (S (S fuel)) (PState buf [] []) =
    Blocked (PState (drop (length buf / fs * fs) buf) []
                    (if fs <=? length buf
                     then [take (length buf / fs * fs) buf] else [])).
Proof.
  intros Hfs.
  pose proof (Nat.div_mod_eq (length buf) fs) as E.
  pose proof (Nat.mod_upper_bound (length buf) fs) as U.
  cbn [playback]. unfold playback_step at 1. cbn [buffer queue written].
  destruct (fs <=? length buf) eqn:Hle.
  - unfold playback_step. cbn [buffer queue written].
    assert ((fs <=? length (drop (length buf / fs * fs) buf)) = false) as ->.
    { apply Nat.leb_gt. rewrite length_drop. lia. }
    destruct fuel; reflexivity.
  - apply Nat.leb_gt in Hle.
    rewrite (Nat.div_small _ _ Hle). simpl. reflexivity.
Qed.

Lemma playback_exhausted_never_finishes (fs : nat) (fuel : nat) :
  0 < fs -> forall buf ws st,
  playback fs fuel (PState buf [] ws) <> Finished st.
Proof.
  intros Hfs. induction fuel as [|fuel IH]; intros buf ws st; [easy|].
  cbn [playback]. unfold playback_step. cbn [buffer queue written].
  destruct (fs <=? length buf); [apply IH | easy].
Qed.

End ClientSentinel.

(** C10: when the stream carries fewer than [min_buffer_size] bytes, the
    sentinel ends the priming loop; the playback loop then writes the
    frame-aligned prefix of the buffer (if there is a whole frame) and
    waits in [chunk_queue.get()] on the exhausted queue.  It never leaves
    the loop, however many iterations it is given. *)
Theorem play_audio_sentinel_lost (cs : list bytes) (fuel : nat) :
  length (concat cs) < Client.min_buffer_size ->
  Client.play_audio (S (S fuel)) (Client.request_tts_items cs) =
    Client.Blocked
      (Client.PState
         (drop (length (concat cs) / 2 * 2) (concat cs)) []
         (if 2 <=? length (concat cs)
          then [take (length (concat cs) / 2 * 2) (concat cs)] else []))
  /\ (forall n st, Client.play_audio n (Client.request_tts_items cs)
                   <> Client.Finished st).
Proof.
  intros H. unfold Client.play_audio, Client.play_audio_with.
  rewrite (prime_short Client.min_buffer_size cs []) by exact H.
  cbn [app]. split.
  - apply (playback_exhausted Client.frame_size (concat cs) fuel).
    unfold Client.frame_size, Client.sample_size_paInt16, Client.CHANNELS. lia.
  - intros n st. apply playback_exhausted_never_finishes.
    unfold Client.frame_size, Client.sample_size_paInt16, Client.CHANNELS. lia.
Qed.

Lemma play_audio_sentinel_lost_witness :
  Client.play_audio 2 (Client.request_tts_items [b "AAA"]) =
    Client.Blocked (Client.PState (b "A") [] [b "AA"])
  /\ (forall n st, Client.play_audio n (Client.request_tts_items [b "AAA"])
                   <> Client.Finished st).
Proof.
  apply (play_audio_sentinel_lost [b "AAA"] 0).
  vm_compute. lia.
Defined.

(** C9, as stated, fails: on [b"AAAA"], [b"BB"], [None] the playback loop
    never leaves its loop, and at no point is [b"AAAA"] the first block
    that it has written. *)
Lemma play_audio_scenario_refuted :
  ~ (exists fuel st,
       Client.play_audio fuel scenario_AAAA_BB = Client.Finished st) /\
  ~ (exists fuel ws,
       Client.written (Client.state_of (Client.play_audio fuel scenario_AAAA_BB))
       = b "AAAA" :: ws).
Proof.
  split.
  - intros (fuel & st & H). revert H.
    change (Client.play_audio fuel scenario_AAAA_BB)
      with (Client.playback 2 fuel (Client.PState (b "AAAABB") [] [])).
    apply playback_exhausted_never_finishes. lia.
  - intros (fuel & ws & H). revert H.
    change (Client.play_audio fuel scenario_AAAA_BB)
      with (Client.playback 2 fuel (Client.PState (b "AAAABB") [] [])).
    destruct fuel as [|[|fuel]]; [discriminate | discriminate |].
    rewrite playback_exhausted by lia. discriminate.
Qed.

(** C9, amended: on [b"AAAA"], [b"BB"], [None] the priming loop merges
    the two chunks, and the first iteration of the playback loop hands
    the six bytes [b"AAAABB"] to the sink in one write; nothing else is
    written afterwards and no byte stays in the buffer. *)
Theorem play_audio_scenario_single_write (fuel : nat) :
  Client.written (Client.state_of (Client.play_audio (S fuel) scenario_AAAA_BB))
    = [b "AAAABB"]
  /\ Client.buffer (Client.state_of (Client.play_audio (S fuel) scenario_AAAA_BB))
    = [].
Proof.
  change (Client.play_audio (S fuel) scenario_AAAA_BB)
    with (Client.playback 2 (S fuel) (Client.PState (b "AAAABB") [] [])).
  destruct fuel as [|fuel]; [split; reflexivity|].
  rewrite playback_exhausted by lia. split; reflexivity.
Qed.

(** * The WAV header *)

Section WaveHeader.
Import Py.

Lemma Z_of_byte_of_Z (z : Z) : Z_of_byte (byte_of_Z z) = (z mod 256)%Z.
Proof.
  unfold Z_of_byte, byte_of_Z.
  assert (0 <= z mod 256 < 256)%Z as Hr by (apply Z.mod_pos_bound; lia).
  destruct (Byte.of_N (Z.to_N (z mod 256))) as [x|] eqn:E.
  - apply Byte.to_of_N in E. rewrite E. lia.
  - apply Byte.of_N_None_iff in E. lia.
Qed.

Lemma le_value_le_bytes (n : nat) : forall z,
  le_value (le_bytes n z) = (z mod 256 ^ Z.of_nat n)%Z.
Proof.
  induction n as [|n IH]; intros z.
  - simpl. now rewrite Z.mod_1_r.
  - cbn [le_bytes le_value]. rewrite Z_of_byte_of_Z, IH.
    rewrite Nat2Z.inj_succ, Z.pow_succ_r by lia.
    rewrite Z.rem_mul_r by lia. reflexivity.
Qed.

Lemma le_bytes_length (n : nat) : forall z, length (le_bytes n z) = n.
Proof. induction n; intros z; simpl; auto. Qed.

(** The header that [create_wave_header_for_engine] builds for a sample
    rate that the [wave] module accepts. *)
Lemma wave_header_mono16 (rate : Z) :
  (0 < rate < 2 ^ 31)%Z ->
  exists h,
    wave_header 1 2 rate = Some h /\
    length h = 44 /\
    declared_channels h = 1%Z /\
    declared_sample_width h = 2%Z /\
    declared_sample_rate h = rate.
Proof.
  intros Hr. unfold wave_header, pack_L, pack_H.
  assert ((rate <=? 0)%Z = false) as -> by lia.
  assert (((0 <=? rate) && (rate <? 2 ^ 32))%Z = true) as -> by lia.
  assert (((0 <=? 1 * rate * 2) && (1 * rate * 2 <? 2 ^ 32))%Z = true) as -> by lia.
  cbn -[le_bytes Z.mul Z.pow b]. eexists. split; [reflexivity|].
  split; [reflexivity|]. split; [reflexivity|]. split; [reflexivity|].
  unfold declared_sample_rate, field.
  change (take 4 (drop 24 ?l)) with (le_bytes 4 rate).
  rewrite le_value_le_bytes.
  apply Z.mod_small. lia.
Qed.

(** Outside that range the [wave] module raises. *)
Lemma wave_header_mono16_fails (rate : Z) :
  (rate <= 0 \/ 2 ^ 31 <= rate)%Z -> wave_header 1 2 rate = None.
Proof.
  intros Hr. unfold wave_header, pack_L, pack_H.
  destruct (rate <=? 0)%Z eqn:E; [reflexivity|].
  assert (((0 <=? 1 * rate * 2) && (1 * rate * 2 <? 2 ^ 32))%Z = false) as -> by lia.
  cbn -[le_bytes Z.mul Z.pow b].
  destruct ((0 <=? rate) && (rate <? 2 ^ 32))%Z; reflexivity.
Qed.

End WaveHeader.

(** * The streaming generators *)

Section Generators.
Import Py Common.

Lemma create_wave_header_for_engine_eq (e : engine) :
  create_wave_header_for_engine e = wave_header 1 2 (reported_sample_rate e).
Proof.
  unfold create_wave_header_for_engine, reported_sample_rate.
  destruct (get_stream_info e) as [[x y] r]. reflexivity.
Qed.

Lemma create_wave_header_for_engine_ok (e : engine) :
  wave_rate e ->
  exists h,
    create_wave_header_for_engine e = Some h /\
    declared_channels h = 1%Z /\
    declared_sample_width h = 2%Z /\
    declared_sample_rate h = reported_sample_rate e.
Proof.
  intros Hr. rewrite create_wave_header_for_engine_eq.
  destruct (wave_header_mono16 _ Hr) as (h & H1 & _ & H2 & H3 & H4).
  exists h. auto.
Qed.

(** After the first chunk the loop only forwards. *)
Lemma generator_loop_forwards (e : engine) (emit : bool) (cs : list bytes)
    (rest : list item) :
  generator_loop e emit true (stream_items cs rest) = (map Chunk cs, Terminated rest).
Proof.
  unfold stream_items.
  induction cs as [|c cs IH]; simpl; [reflexivity|].
  now rewrite IH.
Qed.

(** The whole run when no header is due. *)
Lemma generator_loop_plain (e : engine) (cs : list bytes) (rest : list item) :
  generator_loop e false false (stream_items cs rest) = (map Chunk cs, Terminated rest).
Proof.
  destruct cs as [|c cs]; [reflexivity|].
  change (stream_items (c :: cs) rest) with (Some c :: stream_items cs rest).
  cbn [generator_loop negb]. now rewrite generator_loop_forwards.
Qed.

(** The whole run when a header is due and can be built. *)
Lemma generator_loop_framed (e : engine) (h : bytes) (cs : list bytes)
    (rest : list item) :
  create_wave_header_for_engine e = Some h ->
  generator_loop e true false (stream_items cs rest)
  = (header_blocks true h cs ++ map Chunk cs, Terminated rest).
Proof.
  intros Hh. destruct cs as [|c cs]; [reflexivity|].
  change (stream_items (c :: cs) rest) with (Some c :: stream_items cs rest).
  cbn [generator_loop negb]. rewrite Hh.
  now rewrite generator_loop_forwards.
Qed.

Lemma generator_loop_run (e : engine) (emit : bool) (h : bytes)
    (cs : list bytes) (rest : list item) :
  (emit = true -> create_wave_header_for_engine e = Some h) ->
  generator_loop e emit false (stream_items cs rest)
  = (header_blocks emit h cs ++ map Chunk cs, Terminated rest).
Proof.
  intros Hh. destruct emit.
  - apply generator_loop_framed; auto.
  - rewrite generator_loop_plain. now destruct cs.
Qed.

(** When a header is due and the [wave] module rejects the sample rate,
    the exception is caught by the generator, which ends without having
    yielded anything. *)
Lemma generator_loop_header_error (e : engine) (c : bytes) (q : list item) :
  ~ wave_rate e ->
  generator_loop e true false (Some c :: q) = ([], Failed).
Proof.
  intros Hr. cbn [generator_loop negb].
  rewrite create_wave_header_for_engine_eq.
  rewrite wave_header_mono16_fails; [reflexivity|].
  unfold wave_rate in Hr. lia.
Qed.

Lemma chunks_of_Chunk (cs : list bytes) : chunks_of (map Chunk cs) = cs.
Proof. induction cs as [|c cs IH]; simpl; [|rewrite IH]; reflexivity. Qed.

Lemma chunks_of_framed (due : bool) (h : bytes) (cs : list bytes) :
  chunks_of (header_blocks due h cs ++ map Chunk cs) = cs.
Proof.
  unfold chunks_of. rewrite omap_app. fold (chunks_of (map Chunk cs)).
  rewrite chunks_of_Chunk.
  destruct cs; [reflexivity|]. destruct due; reflexivity.
Qed.

Lemma header_count_Chunk (cs : list bytes) : header_count (map Chunk cs) = 0.
Proof.
  unfold header_count. induction cs as [|c cs IH]; simpl; auto.
Qed.


(** A header is needed only once a chunk has come: the run on a stream
    of chunks with its sentinel, when the header can be built if it is
    due and there is a chunk. *)
Lemma generator_loop_stream (e : engine) (emit : bool) (h : bytes)
    (cs : list bytes) (rest : list item) :
  (cs <> [] -> emit = true -> create_wave_header_for_engine e = Some h) ->
  generator_loop e emit false (stream_items cs rest)
  = (header_blocks emit h cs ++ map Chunk cs, Terminated rest).
Proof.
  intros Hh. destruct cs as [|c cs]; [reflexivity|].
  apply generator_loop_run. apply Hh. discriminate.
Qed.

(** Without a sentinel the loop forwards what there is and then waits. *)
Lemma generator_loop_forwards_starved (e : engine) (emit : bool)
    (cs : list bytes) :
  generator_loop e emit true (map Some cs) = (map Chunk cs, Starved).
Proof.
  induction cs as [|c cs IH]; simpl; [reflexivity|].
  now rewrite IH.
Qed.

Lemma generator_loop_starved (e : engine) (emit : bool) (h : bytes)
    (cs : list bytes) :
  (cs <> [] -> emit = true -> create_wave_header_for_engine e = Some h) ->
  generator_loop e emit false (map Some cs)
  = (header_blocks emit h cs ++ map Chunk cs, Starved).
Proof.
  intros Hh. destruct cs as [|c cs]; [reflexivity|].
  cbn [map generator_loop negb]. rewrite generator_loop_forwards_starved.
  destruct emit; [|reflexivity].
  rewrite Hh by (discriminate || reflexivity). reflexivity.
Qed.

(** A header that is due and cannot be built ends the run at the first
    chunk, whatever follows it on the queue. *)
Lemma generator_loop_fails (e : engine) (cs : list bytes) (rest : list item) :
  cs <> [] ->
  create_wave_header_for_engine e = None ->
  generator_loop e true false (stream_items cs rest) = ([], Failed) /\
  generator_loop e true false (map Some cs) = ([], Failed).
Proof.
  intros Hcs Hh. destruct cs as [|c cs]; [contradiction|].
  unfold stream_items. cbn [map app generator_loop negb]. now rewrite Hh.
Qed.

(** A queue holds a sentinel behind some chunks, or chunks alone. *)
Lemma queue_shape (q : list item) :
  (exists cs rest, q = stream_items cs rest) \/ (exists cs, q = map Some cs).
Proof.
  induction q as [|[c|] q IH].
  - right. now exists [].
  - destruct IH as [(cs & rest & ->)|(cs & ->)].
    + left. now exists (c :: cs), rest.
    + right. now exists (c :: cs).
  - left. now exists [], q.
Qed.

End Generators.

(** C6, as stated, fails.  With headers switched on and an engine that
    reports a sample rate of 0, building the header raises at the first
    chunk; the generator of either server catches the exception and ends,
    and none of the two chunks that were pushed ahead of the sentinel is
    yielded.  And in [server.py] a generator that finds [gen_lock] held
    for ever yields nothing of such a queue either, and does not
    terminate. *)
Lemma generator_chunks_refuted :
  Server.audio_chunk_generator_with_lock Server.Free engine_rate0
    (stream_items [b "AAAA"; b "BB"] []) true
  = (Server.Streams [] Common.Failed, Server.Free) /\
  AsyncServer.audio_chunk_generator
    (AsyncServer.Handler engine_rate0 (stream_items [b "AAAA"; b "BB"] []) true)
    true
  = ([], Common.Failed) /\
  Server.audio_chunk_generator_with_lock Server.HeldForEver engine_pcm16
    (stream_items [b "AAAA"; b "BB"] []) false
  = (Server.WaitsForLock, Server.HeldForEver).
Proof.
  split; [|split]; vm_compute; reflexivity.
Qed.

(** C6, amended: a queue that receives the chunks [cs] (any number of
    them) and then the sentinel makes the generator yield exactly the
    chunks [cs], in push order, and leave its loop at the sentinel without
    reading anything put after it, the only other block being the header
    in front where one is due; provided that, where a header is due and
    there is a chunk, the engine reports a sample rate that the [wave]
    module accepts, and, in [server.py], that the generator gets
    [gen_lock], which it then gives back.  The generator of
    [async_server.py] takes no lock. *)
Theorem generator_yields_chunks_if_header_builds (e e' : Common.engine)
    (send_wave_headers : bool) (cs : list bytes) (rest : list item)
    (speaking : bool) :
  (cs <> [] -> server_header_due e send_wave_headers = true -> wave_rate e) ->
  (cs <> [] -> send_wave_headers = true -> wave_rate e') ->
  (exists front,
      Server.audio_chunk_generator_with_lock Server.Free e
        (stream_items cs rest) send_wave_headers
      = (Server.Streams (front ++ map Common.Chunk cs) (Common.Terminated rest),
         Server.Free) /\
      Forall (fun x => Common.is_header x = true) front /\
      length front <= 1 /\
      Common.chunks_of (front ++ map Common.Chunk cs) = cs) /\
  (exists front,
      AsyncServer.audio_chunk_generator
        (AsyncServer.Handler e' (stream_items cs rest) speaking) send_wave_headers
      = (front ++ map Common.Chunk cs, Common.Terminated rest) /\
      Forall (fun x => Common.is_header x = true) front /\
      length front <= 1 /\
      Common.chunks_of (front ++ map Common.Chunk cs) = cs).
Proof.
  intros Hs Ha.
  assert (forall (x : Common.engine) (due : bool),
             (cs <> [] -> due = true -> wave_rate x) ->
             exists h, cs <> [] -> due = true ->
                       Common.create_wave_header_for_engine x = Some h) as Hbuild.
  { intros x due Hr. destruct cs as [|c cs']; [exists []; congruence|].
    destruct due; [|exists []; discriminate].
    assert (c :: cs' <> []) as Hne by discriminate.
    destruct (create_wave_header_for_engine_ok x (Hr Hne eq_refl))
      as (h & Hh & _).
    exists h. auto. }
  assert (forall due h, Forall (fun x => Common.is_header x = true)
                               (header_blocks due h cs) /\
                        length (header_blocks due h cs) <= 1) as Hfront.
  { intros due h. destruct cs; [split; [constructor | simpl; lia]|].
    destruct due; simpl; split; repeat constructor. }
  split.
  - destruct (Hbuild e _ Hs) as [h Hh].
    exists (header_blocks (server_header_due e send_wave_headers) h cs).
    split; [|split; [apply Hfront | split; [apply Hfront | apply chunks_of_framed]]].
    unfold Server.audio_chunk_generator_with_lock, Server.audio_chunk_generator.
    fold (server_header_due e send_wave_headers).
    now rewrite (generator_loop_stream e _ h cs rest Hh).
  - destruct (Hbuild e' _ Ha) as [h Hh].
    exists (header_blocks send_wave_headers h cs).
    split; [|split; [apply Hfront | split; [apply Hfront | apply chunks_of_framed]]].
    unfold AsyncServer.audio_chunk_generator. cbn.
    apply generator_loop_stream. assumption.
Qed.

Lemma generator_yields_chunks_if_header_builds_witness :
  (exists front,
      Server.audio_chunk_generator_with_lock Server.Free engine_pcm16
        (stream_items [b "AAAA"; b "BB"] []) true
      = (Server.Streams (front ++ map Common.Chunk [b "AAAA"; b "BB"])
           (Common.Terminated []),
         Server.Free) /\
      Forall (fun x => Common.is_header x = true) front /\
      length front <= 1 /\
      Common.chunks_of (front ++ map Common.Chunk [b "AAAA"; b "BB"])
      = [b "AAAA"; b "BB"]) /\
  (exists front,
      AsyncServer.audio_chunk_generator
        (AsyncServer.Handler engine_float32 (stream_items [b "AAAA"; b "BB"] []) true)
        true
      = (front ++ map Common.Chunk [b "AAAA"; b "BB"], Common.Terminated []) /\
      Forall (fun x => Common.is_header x = true) front /\
      length front <= 1 /\
      Common.chunks_of (front ++ map Common.Chunk [b "AAAA"; b "BB"])
      = [b "AAAA"; b "BB"]).
Proof.
  apply (generator_yields_chunks_if_header_builds engine_pcm16 engine_float32
           true [b "AAAA"; b "BB"] [] true);
    intros _ _; unfold wave_rate; vm_compute; split; reflexivity.
Defined.




(** C7 on [async_server.py]: with the MPEG engine active, a browser
    request is answered with content type [audio/wav] and its stream
    starts with a WAV header.  [server.py], on the same request, answers
    [audio/mpeg] and sends no header. *)
Lemma async_tts_ignores_encoding :
  (exists resp w',
      AsyncServer.tts browser "hi" (AsyncServer.init engine_mpeg) = (Py.Ok resp, w') /\
      Common.media_type resp = "audio/wav" /\
      Common.body_send_wave_headers resp = true /\
      exists h,
        (AsyncServer.audio_chunk_generator
           (AsyncServer.Handler engine_mpeg (stream_items [b "AAAA"] []) true)
           (Common.body_send_wave_headers resp)).1
        = [Common.Header h; Common.Chunk (b "AAAA")]) /\
  (exists resp w',
      Server.tts browser "hi" (Server.init engine_mpeg) = (Py.Ok resp, w') /\
      Common.media_type resp = "audio/mpeg" /\
      (Server.audio_chunk_generator engine_mpeg (stream_items [b "AAAA"] [])
         (Common.body_send_wave_headers resp)).1
      = [Common.Chunk (b "AAAA")]).
Proof.
  split.
  - eexists _, _. split; [vm_compute; reflexivity|].
    split; [reflexivity|]. split; [reflexivity|].
    eexists. vm_compute. reflexivity.
  - eexists _, _. split; [vm_compute; reflexivity|].
    split; reflexivity.
Qed.

(** * The worker and the gate of server.py *)

Section ServerWorker.
Import Py Common Server.

(** What the callback puts on the queue while the stream plays. *)
Lemma for_each_put (audio_queue : nat) (cs : list bytes) : forall w,
  for_each cs (fun chunk => queue_put audio_queue (Some chunk)) w
  = (Ok tt,
     World (semaphore w) (current_speaking w) (current_engine w)
           (alter (fun q => q ++ map Some cs) audio_queue (queues w))
           (threads w)
           (trace w ++ map (fun c => EvPut audio_queue (Some c)) cs)).
Proof.
  induction cs as [|c cs IH]; intros w.
  - cbn. rewrite app_nil_r. f_equal. destruct w; cbn. f_equal.
    symmetry. apply list_alter_id. intros q. apply app_nil_r.
  - cbn [for_each]. unfold mbind, M_bind. unfold bind at 1.
    unfold queue_put at 1. unfold mbind, M_bind.
    unfold bind at 1, modify at 1, log at 1, modify at 1.
    cbn [semaphore current_speaking current_engine queues threads trace].
    rewrite IH.
    cbn [semaphore current_speaking current_engine queues threads trace].
    f_equal. f_equal.
    + rewrite list_alter_alter_eq.
      apply list_alter_ext; [|reflexivity].
      intros q _. cbn. now rewrite <- app_assoc.
    + now rewrite <- app_assoc.
Qed.

(** The run of the worker, whatever the stream does. *)
Lemma play_text_to_speech_run (syn : synthesis) (text : string)
    (audio_queue : nat) (w : world) :
  play_text_to_speech syn text audio_queue w
  = (worker_result syn,
     World (S (semaphore w))
           (<[text := false]> (<[text := true]> (current_speaking w)))
           (current_engine w)
           (alter (fun q => q ++ worker_puts syn) audio_queue (queues w))
           (threads w)
           (trace w ++ [EvSpeaking text true]
                   ++ worker_events syn text audio_queue
                   ++ [EvSpeaking text false; EvRelease])).
Proof.
  unfold play_text_to_speech, worker_result, worker_puts, worker_events.
  unfold set_speaking, stream_feed, stream_play, semaphore_release.
  unfold mbind, M_bind.
  unfold bind at 1.
  unfold bind at 1, modify at 1, log at 1, modify at 1.
  cbn [semaphore current_speaking current_engine queues threads trace].
  unfold try_finally.
  unfold bind at 1.
  unfold bind at 1, log at 1, modify at 1.
  cbn [semaphore current_speaking current_engine queues threads trace].
  destruct (feed_error syn) as [e|].
  { cbn. f_equal. f_equal.
    - symmetry. apply list_alter_id. intros q. apply app_nil_r.
    - rewrite <- !app_assoc. reflexivity. }
  unfold ret at 1. unfold bind at 1.
  unfold bind at 1. rewrite for_each_put.
  cbn [semaphore current_speaking current_engine queues threads trace].
  destruct (play_error syn) as [e|].
  { cbn. f_equal. f_equal.
    - apply list_alter_ext; [|reflexivity]. intros q _. now rewrite app_nil_r.
    - rewrite <- !app_assoc. reflexivity. }
  unfold queue_put, mbind, M_bind, bind, modify, log.
  cbn. f_equal. f_equal.
  - rewrite list_alter_alter_eq.
    apply list_alter_ext; [|reflexivity]. intros q _. cbn.
    now rewrite <- app_assoc.
  - rewrite <- !app_assoc. cbn. rewrite <- ?app_assoc. reflexivity.
Qed.

(** The sentinel reaches the queue only on a clean run. *)
Lemma worker_puts_sentinel (syn : synthesis) :
  None ∈ worker_puts syn <-> feed_error syn = None /\ play_error syn = None.
Proof.
  unfold worker_puts. split.
  - destruct (feed_error syn); [intros H; inversion H|].
    destruct (play_error syn); [|auto].
    rewrite app_nil_r. intros H.
    apply list_elem_of_fmap in H as (c & Hc & _). discriminate.
  - intros [-> ->]. apply elem_of_app. right. constructor.
Qed.

(** A request that is let in and whose stream plays to the end: the
    queue of its response holds the chunks in the order in which the
    engine put them out, and the sentinel after them. *)
Lemma server_job_fills_queue (req : request) (text : string)
    (syn : synthesis) (w : world) (v : nat) :
  semaphore w = S v ->
  feed_error syn = None -> play_error syn = None ->
  queues (thread_body syn (Worker text (length (queues w)))
            (tts req text w).2).2
    !! length (queues w)
  = Some (stream_items (chunks syn) []).
Proof.
  intros Hs Hf Hp.
  unfold tts, thread_start, mbind, M_bind, bind, new_queue,
    semaphore_acquire. cbn. rewrite Hs. cbn.
  rewrite play_text_to_speech_run. cbn.
  rewrite list_lookup_alter_eq.
  rewrite lookup_app_r by lia. rewrite Nat.sub_diag. cbn.
  unfold worker_puts, stream_items. now rewrite Hf, Hp.
Qed.

End ServerWorker.

Section ServerGate.
Import Py Common Server.

(** [/tts] with a free permit: the permit is taken and the worker
    started. *)
Lemma tts_lets_in (req : request) (text : string) (w : world) (v : nat) :
  semaphore w = S v ->
  tts req text w
  = (Ok (StreamingResponse (length (queues w)) (is_browser_request req)
           (if negb (String.eqb (engine_name (current_engine w)) "elevenlabs")
            then "audio/wav" else "audio/mpeg")),
     World v (current_speaking w) (current_engine w) (queues w ++ [[]])
           (threads w ++ [Worker text (length (queues w))])
           (trace w ++ [EvAcquire true; EvStart (Worker text (length (queues w)))])).
Proof.
  intros Hs. unfold tts, thread_start, mbind, M_bind, bind, new_queue,
    semaphore_acquire. cbn.
  rewrite Hs. cbn. rewrite <- app_assoc. reflexivity.
Qed.

(** [/tts] with the permit taken: the request is turned away. *)
Lemma tts_rejects (req : request) (text : string) (w : world) :
  semaphore w = 0 ->
  tts req text w
  = (Raise busy,
     World 0 (current_speaking w) (current_engine w) (queues w ++ [[]])
           (threads w) (trace w ++ [EvAcquire false])).
Proof.
  intros Hs. unfold tts, thread_start, mbind, M_bind, bind, new_queue,
    semaphore_acquire. cbn.
  rewrite Hs. reflexivity.
Qed.

Lemma tts_text_state (req : request) (text : string) (w : world) :
  (tts_text req text w).2
  = match semaphore w with
    | 0 => World 0 (current_speaking w) (current_engine w) (queues w)
                 (threads w) (trace w ++ [EvAcquire false])
    | S v => World v (current_speaking w) (current_engine w) (queues w)
                   (threads w ++ [WorkerNoQueue text])
                   (trace w ++ [EvAcquire true; EvStart (WorkerNoQueue text)])
    end.
Proof.
  unfold tts_text, thread_start, mbind, M_bind, bind, semaphore_acquire.
  destruct (semaphore w); cbn; [reflexivity|].
  rewrite <- app_assoc. reflexivity.
Qed.

Lemma gate_inv_step (w w' : world) : step w w' -> gate_inv w -> gate_inv w'.
Proof.
  unfold gate_inv. intros Hstep Hinv. destruct Hstep as [req text w|req text w|i t syn w Hi].
  - destruct (semaphore w) as [|v] eqn:Hs.
    + rewrite tts_rejects by assumption. cbn. lia.
    + rewrite (tts_lets_in _ _ _ v) by assumption. cbn.
      rewrite length_app. cbn. lia.
  - rewrite tts_text_state. destruct (semaphore w) as [|v] eqn:Hs; cbn.
    + lia.
    + rewrite length_app. cbn. lia.
  - pose proof (lookup_lt_Some _ _ _ Hi) as Hlt.
    destruct t as [text q|text].
    + cbn [thread_body]. rewrite play_text_to_speech_run. cbn.
      rewrite length_delete by eauto. lia.
    + cbn. rewrite length_delete by eauto. lia.
Qed.

Lemma gate_inv_reachable (e : engine) (w : world) : reachable e w -> gate_inv w.
Proof.
  unfold reachable. revert w.
  apply (rtc_ind_r (fun w => gate_inv w) (init e)).
  - unfold gate_inv. cbn. lia.
  - intros y z _ Hstep IH. eapply gate_inv_step; eassumption.
Qed.

Lemma in_flight_le_threads (w : world) : in_flight w <= length (threads w).
Proof. unfold in_flight. apply List.filter_length_le. Qed.

(** In [server.py] at most one job is in flight, in every state the
    server can reach, and the semaphore never holds more than its one
    permit. *)
Lemma server_single_flight (e : engine) (w : world) :
  reachable e w -> in_flight w <= 1 /\ semaphore w <= 1 /\
                   (0 < in_flight w -> semaphore w = 0).
Proof.
  intros H. apply gate_inv_reachable in H. unfold gate_inv in H.
  pose proof (in_flight_le_threads w). lia.
Qed.

Lemma attempts_exhausted (n : nat) :
  attempts n 0 = (repeat false n, 0).
Proof. induction n as [|n IH]; cbn; [|rewrite IH]; reflexivity. Qed.

Lemma no_success_in_failures (n : nat) : List.filter id (repeat false n) = [].
Proof. induction n; cbn; auto. Qed.

(** The gate itself: of any number of attempts in a row on a semaphore
    with at most one permit, at most one succeeds (the first, if a permit
    is there), and a failed attempt returns [False] and leaves the
    semaphore as it was. *)
Lemma gate_at_most_one (n value : nat) :
  value <= 1 ->
  length (List.filter id (attempts n value).1) = Nat.min n value /\
  acquire_nonblocking 0 = (false, 0).
Proof.
  intros Hv. split; [|reflexivity].
  destruct value as [|[|v]]; [| |lia].
  - rewrite attempts_exhausted. cbn [fst].
    rewrite no_success_in_failures. cbn. lia.
  - destruct n; [reflexivity|]. cbn [attempts acquire_nonblocking].
    rewrite attempts_exhausted. cbn [fst List.filter id].
    rewrite no_success_in_failures. cbn. lia.
Qed.

End ServerGate.

(** * The gate of async_server.py *)

Section AsyncGate.
Import Py Common AsyncServer.

(** [/tts] of the async server with the permit free: the thread is
    started and the permit is back when the handler returns. *)
Lemma async_tts_lets_in (req : request) (text : string) (w : world) :
  semaphore w = 1 ->
  tts req text w
  = (Ok (StreamingResponse (length (handlers w)) (is_browser_request req)
                           "audio/wav"),
     World 1 (current_engine w)
           (handlers w ++ [Handler (current_engine w) [] false])
           (threads w ++ [(length (handlers w), text)])
           (playing w)
           (trace w ++ [EvAcquire true; EvStart (length (handlers w)) text;
                        EvRelease])).
Proof.
  intros Hs.
  unfold tts, try_finally, thread_start, semaphore_release, mbind, M_bind, bind,
    get, new_handler, semaphore_acquire, modify, log. cbn.
  rewrite Hs. cbn. rewrite <- !app_assoc. reflexivity.
Qed.

(** Neither the worker nor the playback touches the semaphore. *)
Lemma async_queue_put_gate (self : nat) (x : item) (w : world) :
  exists w', queue_put self x w = (Ok tt, w') /\ semaphore w' = semaphore w.
Proof.
  eexists. split; [reflexivity|]. reflexivity.
Qed.

Lemma async_for_each_gate (self : nat) (cs : list bytes) : forall w,
  exists w', for_each cs (on_audio_chunk self) w = (Ok tt, w') /\
             semaphore w' = semaphore w.
Proof.
  induction cs as [|c cs IH]; intros w.
  - exists w. split; reflexivity.
  - cbn [for_each]. unfold mbind, M_bind, bind. unfold on_audio_chunk at 1.
    destruct (async_queue_put_gate self (Some c) w) as (w1 & -> & H1).
    destruct (IH w1) as (w2 & -> & H2).
    exists w2. split; [reflexivity | congruence].
Qed.

Lemma async_playback_gate (syn : synthesis) (self : nat) (w : world) :
  semaphore (playback syn self w).2 = semaphore w.
Proof.
  unfold playback, mbind, M_bind, bind.
  destruct (async_for_each_gate self (chunks syn) w) as (w1 & -> & H1).
  destruct (play_error syn); [exact H1|].
  destruct (reports_stop syn); [|exact H1].
  cbn. exact H1.
Qed.

Lemma async_worker_gate (syn : synthesis) (self : nat) (text : string)
    (w : world) :
  semaphore (play_text_to_speech syn self text w).2 = semaphore w.
Proof.
  unfold play_text_to_speech, stream_feed, stream_play_async, set_speaking,
    update_handler, mbind, M_bind, bind, modify, log.
  cbn. destruct (feed_error syn); reflexivity.
Qed.

(** In every state that the async server can reach between two moves the
    permit is free: no request is ever turned away or left without its
    thread. *)
Lemma async_permit_always_free (e : engine) (w : world) :
  reachable e w -> semaphore w = 1.
Proof.
  unfold reachable. revert w.
  apply (rtc_ind_r (fun w => semaphore w = 1) (init e)); [reflexivity|].
  intros y z _ Hstep IH.
  destruct Hstep as [req text w|i self text syn w Hi|i self syn w Hi].
  - rewrite async_tts_lets_in by assumption. reflexivity.
  - unfold remove_thread. cbn. now rewrite async_worker_gate.
  - unfold remove_playing. cbn. now rewrite async_playback_gate.
Qed.

(** So any number of jobs can be in flight at once. *)
Lemma async_in_flight_unbounded (e : engine) (n : nat) :
  exists w, reachable e w /\ in_flight w = n.
Proof.
  induction n as [|n (w & Hreach & Hn)].
  - exists (init e). split; [apply rtc_refl | reflexivity].
  - exists (tts script "more" w).2. split.
    + eapply rtc_r; [exact Hreach | constructor].
    + rewrite async_tts_lets_in by (eapply async_permit_always_free; eassumption).
      unfold in_flight in *. cbn. rewrite length_app. cbn. lia.
Qed.

End AsyncGate.

(** ** The claims on the gate and the worker *)

(** In [server.py] the release closes the run of the worker: it is the
    last event, it happens once, and every [feed] and [put] of the run
    comes before it, also when the stream raises. *)
Lemma server_release_is_last (syn : Common.synthesis) (text : string)
    (audio_queue : nat) (w : Server.world) :
  exists work,
    Server.trace (Server.play_text_to_speech syn text audio_queue w).2
    = Server.trace w ++ work ++ [Server.EvRelease] /\
    (Server.EvRelease ∉ work) /\
    Server.EvFeed text ∈ work /\
    Server.semaphore (Server.play_text_to_speech syn text audio_queue w).2
    = S (Server.semaphore w).
Proof.
  rewrite play_text_to_speech_run. cbn.
  exists (Server.EvSpeaking text true :: worker_events syn text audio_queue
            ++ [Server.EvSpeaking text false]).
  split; [cbn; rewrite <- !app_assoc; reflexivity|].
  split; [|split; [|reflexivity]].
  - unfold worker_events. intros H.
    apply elem_of_cons in H as [H|H]; [discriminate|].
    apply elem_of_app in H as [H|H];
      [|apply list_elem_of_singleton in H; discriminate].
    apply elem_of_cons in H as [H|H]; [discriminate|].
    destruct (Common.feed_error syn); [inversion H|].
    apply elem_of_app in H as [H|H].
    + apply list_elem_of_fmap in H as (c & Hc & _). discriminate.
    + destruct (Common.play_error syn); [inversion H|].
      apply elem_of_cons in H as [H|H]; [discriminate|].
      apply list_elem_of_singleton in H. discriminate.
  - unfold worker_events. apply elem_of_cons. right.
    apply elem_of_app. left. constructor.
Qed.

(** C4: when the non-blocking acquisition fails, [/tts] of [server.py]
    raises the HTTP error 503 with the header [Retry-After], and starts
    no thread: the started threads, the jobs in flight and the permit
    count are as before, and the history gains the failed attempt only. *)
Theorem tts_busy_is_rejected (req : Common.request) (text : string)
    (w : Server.world) :
  (Server.semaphore_acquire w).1 = Py.Ok false ->
  exists detail w',
    Server.tts req text w
    = (Py.Raise (Py.HTTPException 503 detail [("Retry-After", "10")]), w') /\
    Server.threads w' = Server.threads w /\
    Server.in_flight w' = Server.in_flight w /\
    Server.semaphore w' = Server.semaphore w /\
    Server.trace w' = Server.trace w ++ [Server.EvAcquire false].
Proof.
  intros Hacq.
  assert (Server.semaphore w = 0) as Hs.
  { unfold Server.semaphore_acquire in Hacq.
    destruct (Server.semaphore w); [reflexivity | discriminate]. }
  rewrite tts_rejects by assumption.
  eexists _, _. split; [reflexivity|]. cbn. auto.
Qed.

Lemma tts_busy_is_rejected_witness :
  exists detail w',
    Server.tts browser "second"
      (Server.tts browser "first" (Server.init engine_pcm16)).2
    = (Py.Raise (Py.HTTPException 503 detail [("Retry-After", "10")]), w') /\
    Server.threads w' = [Server.Worker "first" 0] /\
    Server.in_flight w' = 1 /\
    Server.semaphore w' = 0 /\
    Server.trace w'
    = [Server.EvAcquire true; Server.EvStart (Server.Worker "first" 0)]
        ++ [Server.EvAcquire false].
Proof.
  apply (tts_busy_is_rejected browser "second"
           (Server.tts browser "first" (Server.init engine_pcm16)).2).
  reflexivity.
Defined.

(** C1 on the code: a job whose stream raises puts no sentinel on its
    queue.  In [server.py] the [finally] block releases the permit and
    clears the speaking flag, and the generator of the request then waits
    on the queue for ever; this is so when [feed] raises and when [play]
    raises after a chunk.  In [async_server.py] a raising [feed] ends the
    thread before any playback is set off. *)
Lemma worker_exception_loses_sentinel :
  let w0 := (Server.tts script "hi" (Server.init engine_pcm16)).2 in
  let a0 := (AsyncServer.tts script "hi" (AsyncServer.init engine_pcm16)).2 in
  ((Server.thread_body feed_fails (Server.Worker "hi" 0) w0).1
     = Py.Raise (Py.Exception "feed failed") /\
   Server.queues (Server.thread_body feed_fails (Server.Worker "hi" 0) w0).2
     = [[]] /\
   Server.semaphore (Server.thread_body feed_fails (Server.Worker "hi" 0) w0).2
     = 1 /\
   Server.audio_chunk_generator engine_pcm16 [] false = ([], Common.Starved)) /\
  ((Server.thread_body play_fails (Server.Worker "hi" 0) w0).1
     = Py.Raise (Py.Exception "engine failed") /\
   Server.queues (Server.thread_body play_fails (Server.Worker "hi" 0) w0).2
     = [[Some (b "AAAA")]] /\
   Server.audio_chunk_generator engine_pcm16 [Some (b "AAAA")] false
     = ([Common.Chunk (b "AAAA")], Common.Starved)) /\
  ((AsyncServer.play_text_to_speech feed_fails 0 "hi" a0).1
     = Py.Raise (Py.Exception "feed failed") /\
   AsyncServer.handlers (AsyncServer.play_text_to_speech feed_fails 0 "hi" a0).2
     = [AsyncServer.Handler engine_pcm16 [] true] /\
   AsyncServer.playing (AsyncServer.play_text_to_speech feed_fails 0 "hi" a0).2
     = [] /\
   AsyncServer.audio_chunk_generator
     (AsyncServer.Handler engine_pcm16 [] true) false = ([], Common.Starved)).
Proof.
  cbv zeta. repeat split; vm_compute; reflexivity.
Qed.

(** C3 on the code: in [async_server.py] the permit is back before the
    worker has done anything.  After the handler of one request the
    history is acquire, start, release, the started thread has not run,
    and the permit is free; the feed and the playback of the job come
    after the release. *)
Lemma async_release_precedes_work :
  let w1 := (AsyncServer.tts script "hi" (AsyncServer.init engine_pcm16)).2 in
  let w2 := AsyncServer.remove_thread 0
              (AsyncServer.play_text_to_speech plays_two 0 "hi" w1).2 in
  let w3 := AsyncServer.remove_playing 0 (AsyncServer.playback plays_two 0 w2).2 in
  AsyncServer.trace w1
    = [AsyncServer.EvAcquire true; AsyncServer.EvStart 0 "hi";
       AsyncServer.EvRelease] /\
  AsyncServer.threads w1 = [(0, "hi")] /\
  AsyncServer.semaphore w1 = 1 /\
  AsyncServer.reachable engine_pcm16 w3 /\
  AsyncServer.trace w3
    = AsyncServer.trace w1 ++
      [AsyncServer.EvSpeaking 0 true; AsyncServer.EvFeed 0 "hi";
       AsyncServer.EvPlayAsync 0;
       AsyncServer.EvPut 0 (Some (b "AAAA")); AsyncServer.EvPut 0 (Some (b "BB"));
       AsyncServer.EvPut 0 None; AsyncServer.EvSpeaking 0 false].
Proof.
  cbv zeta. repeat split; try (vm_compute; reflexivity).
  unfold AsyncServer.reachable.
  eapply rtc_l; [apply (AsyncServer.step_tts script "hi")|].
  eapply rtc_l; [apply (AsyncServer.step_thread 0 0 "hi" plays_two); reflexivity|].
  eapply rtc_l; [apply (AsyncServer.step_playback 0 0 plays_two); reflexivity|].
  apply rtc_refl.
Qed.

(** C2 on the code: in [async_server.py] two requests in a row both get
    the permit, and both jobs are in flight at once while the permit is
    free again; once their threads have run, the two playbacks go on side
    by side. *)
Lemma async_two_jobs_in_flight :
  let w1 := (AsyncServer.tts script "one" (AsyncServer.init engine_pcm16)).2 in
  let w2 := (AsyncServer.tts script "two" w1).2 in
  let w3 := AsyncServer.remove_thread 0
              (AsyncServer.play_text_to_speech plays_two 0 "one" w2).2 in
  let w4 := AsyncServer.remove_thread 0
              (AsyncServer.play_text_to_speech plays_two 1 "two" w3).2 in
  AsyncServer.reachable engine_pcm16 w4 /\
  AsyncServer.trace w2
    = [AsyncServer.EvAcquire true; AsyncServer.EvStart 0 "one";
       AsyncServer.EvRelease;
       AsyncServer.EvAcquire true; AsyncServer.EvStart 1 "two";
       AsyncServer.EvRelease] /\
  AsyncServer.in_flight w2 = 2 /\
  AsyncServer.semaphore w2 = 1 /\
  AsyncServer.playing w4 = [(0, plays_two); (1, plays_two)] /\
  AsyncServer.in_flight w4 = 2 /\
  AsyncServer.semaphore w4 = 1.
Proof.
  cbv zeta. repeat split; try (vm_compute; reflexivity).
  unfold AsyncServer.reachable.
  eapply rtc_l; [apply (AsyncServer.step_tts script "one")|].
  eapply rtc_l; [apply (AsyncServer.step_tts script "two")|].
  eapply rtc_l; [apply (AsyncServer.step_thread 0 0 "one" plays_two); reflexivity|].
  eapply rtc_l; [apply (AsyncServer.step_thread 0 1 "two" plays_two); reflexivity|].
  apply rtc_refl.
Qed.

(** * More on the client *)

Section ClientReceive.
Import Client.

Lemma receive_spec (write_to_file : bool) (content : list bytes) : forall st,
  receive write_to_file content st
  = RState (chunk_queue st ++ map Some (List.filter truthy content))
           (wav_frames st ++
            (if write_to_file then List.filter truthy content else [])).
Proof.
  induction content as [|c content IH]; intros st.
  - cbn. destruct st, write_to_file; cbn; now rewrite !app_nil_r.
  - cbn [receive]. rewrite IH.
    destruct c as [|x c]; cbn [truthy List.filter]; [reflexivity|].
    destruct write_to_file; cbn; rewrite <- ?app_assoc; reflexivity.
Qed.

Lemma concat_filter_truthy (content : list bytes) :
  concat (List.filter truthy content) = concat content.
Proof.
  induction content as [|c content IH]; [reflexivity|].
  destruct c; cbn; [exact IH | now rewrite IH].
Qed.

Lemma request_tts_queue (write_to_file : bool) (x : exchange) :
  chunk_queue (request_tts write_to_file x (RState [] []))
  = request_tts_items (List.filter truthy (accepted_body x)).
Proof.
  unfold request_tts, accepted_body, request_tts_items.
  destruct x as [|code content broken]; [reflexivity|].
  destruct (raise_for_status code); [reflexivity|].
  rewrite receive_spec. destruct broken; reflexivity.
Qed.

End ClientReceive.

Section ClientStream.
Import Client.

Variable fs : nat.
Hypothesis fs_pos : 0 < fs.

Lemma payload_cons_chunk (c : bytes) (q : list item) :
  payload (Some c :: q) = c ++ payload q.
Proof. reflexivity. Qed.

Lemma payload_items (cs : list bytes) :
  payload (request_tts_items cs) = concat cs.
Proof.
  unfold payload, request_tts_items.
  induction cs as [|c cs IH]; cbn; [reflexivity|].
  now rewrite IH.
Qed.

(** The loop never hands the sink anything but the received bytes, in
    their order. *)
Lemma playback_step_conserves (st : pstate) :
  match playback_step fs st with
  | Again st' =>
      concat (written st') ++ buffer st' ++ payload (queue st')
      = concat (written st) ++ buffer st ++ payload (queue st)
  | Break st' =>
      exists rest,
        concat (written st) ++ buffer st ++ payload (queue st)
        = concat (written st') ++ rest
  | Waits st' => st' = st
  end.
Proof using fs_pos.
  unfold playback_step.
  destruct (fs <=? length (buffer st)).
  - cbn. rewrite concat_app. cbn. rewrite app_nil_r, <- !app_assoc.
    f_equal. rewrite (app_assoc (take _ _)), take_drop. reflexivity.
  - destruct (queue st) as [|[chunk|] q']; [reflexivity| |].
    + cbn [buffer queue written]. rewrite payload_cons_chunk, <- !app_assoc.
      reflexivity.
    + unfold final_flush. cbn [buffer queue written].
      destruct (0 <? length (buffer st)).
      * cbn [written]. rewrite concat_app. cbn. rewrite app_nil_r.
        exists (drop (fs * (length (buffer st) / fs)) (buffer st) ++ payload q').
        rewrite <- !app_assoc. f_equal. rewrite app_assoc.
        rewrite <- (truncate_to_frames_split fs fs_pos). reflexivity.
      * cbn [written]. eexists. reflexivity.
Qed.

Lemma playback_conserves (fuel : nat) : forall st,
  exists rest,
    concat (written st) ++ buffer st ++ payload (queue st)
    = concat (written (state_of (playback fs fuel st))) ++ rest.
Proof using fs_pos.
  induction fuel as [|fuel IH]; intros st.
  - cbn. eexists. reflexivity.
  - cbn [playback]. pose proof (playback_step_conserves st) as Hs.
    destruct (playback_step fs st) as [st'|st'|st'].
    + rewrite <- Hs. apply IH.
    + exact Hs.
    + subst st'. cbn. eexists. reflexivity.
Qed.

Lemma prime_conserves (min_size : nat) (q : list item) : forall buf,
  exists rest,
    buf ++ payload q
    = (state_of (prime min_size buf q)).1
        ++ payload (state_of (prime min_size buf q)).2 ++ rest.
Proof.
  induction q as [|[c|] q IH]; intros buf; cbn [prime].
  - destruct (length buf <? min_size); exists []; reflexivity.
  - destruct (length buf <? min_size).
    + rewrite payload_cons_chunk, app_assoc. apply IH.
    + exists []. cbn [state_of fst snd]. now rewrite app_nil_r.
  - destruct (length buf <? min_size); exists []; cbn [state_of fst snd];
      now rewrite app_nil_r.
Qed.

End ClientStream.

Section ClientCompletes.
Import Client.

Variable fs : nat.
Hypothesis fs_pos : 0 < fs.

(** Whole frames of a buffer that starts with whole frames. *)
Lemma take_frames_app (n : nat) (pre post : bytes) :
  length pre = n * fs ->
  take (fs * (length (pre ++ post) / fs)) (pre ++ post)
  = pre ++ take (fs * (length post / fs)) post.
Proof using fs_pos.
  intros Hpre. rewrite length_app, Hpre.
  rewrite Nat.div_add_l by lia.
  rewrite Nat.mul_add_distr_l, (Nat.mul_comm fs n), <- Hpre.
  apply take_app_add.
Qed.

(** From a buffer below one frame, with the chunks [cs] and the sentinel
    still to come, the loop ends after at most two rounds per chunk and
    one for the sentinel, having written every whole frame. *)
Lemma playback_drains (cs : list bytes) : forall fuel buf ws,
  length buf < fs ->
  2 * length cs + 1 <= fuel ->
  exists st,
    playback fs fuel (PState buf (request_tts_items cs) ws) = Finished st /\
    concat (written st)
    = concat ws ++ take (fs * (length (buf ++ concat cs) / fs)) (buf ++ concat cs) /\
    buffer st = [] /\ queue st = [].
Proof using fs_pos.
  unfold request_tts_items.
  induction cs as [|c cs IH]; intros fuel buf ws Hbuf Hfuel.
  - destruct fuel as [|fuel]; [cbn in Hfuel; lia|].
    cbn [playback]. unfold playback_step. cbn [buffer queue written map app].
    assert ((fs <=? length buf) = false) as -> by (apply Nat.leb_gt; lia).
    eexists. split; [reflexivity|].
    cbn [concat]. rewrite app_nil_r, Nat.div_small, Nat.mul_0_r by lia.
    unfold final_flush. cbn [buffer queue written].
    assert (truncate_to_frames fs buf = []) as Ht.
    { apply length_zero_iff_nil.
      rewrite truncate_to_frames_length, Nat.div_small by lia. lia. }
    destruct (0 <? length buf) eqn:Hl; cbn [written buffer queue].
    + rewrite Ht, concat_app. cbn. rewrite !app_nil_r. auto.
    + apply Nat.ltb_ge in Hl.
      assert (buf = []) as -> by (apply length_zero_iff_nil; lia).
      cbn. rewrite app_nil_r. auto.
  - destruct fuel as [|fuel]; [cbn in Hfuel; lia|].
    cbn [playback]. unfold playback_step at 1. cbn [buffer queue written map app].
    assert ((fs <=? length buf) = false) as -> by (apply Nat.leb_gt; lia).
    cbn [length] in Hfuel.
    destruct (fs <=? length (buf ++ c)) eqn:Hle.
    + destruct fuel as [|fuel]; [lia|].
      cbn [playback]. unfold playback_step at 1. cbn [buffer queue written].
      rewrite Hle.
      pose proof (Nat.div_mod_eq (length (buf ++ c)) fs) as E.
      pose proof (Nat.mod_upper_bound (length (buf ++ c)) fs) as U.
      set (k := length (buf ++ c) / fs * fs) in *.
      destruct (IH fuel (drop k (buf ++ c)) (ws ++ [take k (buf ++ c)]))
        as (st & Hrun & Hw & Hb & Hq).
      { rewrite length_drop. unfold k. lia. }
      { lia. }
      exists st. split; [exact Hrun|]. split; [|auto].
      rewrite Hw, concat_app. cbn [concat]. rewrite app_nil_r, <- app_assoc.
      f_equal. change (concat (c :: cs)) with (c ++ concat cs).
      rewrite (app_assoc buf c).
      assert ((buf ++ c) ++ concat cs
              = take k (buf ++ c) ++ drop k (buf ++ c) ++ concat cs) as ->
        by (now rewrite app_assoc, take_drop).
      rewrite (take_frames_app (length (buf ++ c) / fs) (take k (buf ++ c))
                 (drop k (buf ++ c) ++ concat cs)); [reflexivity|].
      rewrite length_take. unfold k. lia.
    + destruct (IH fuel (buf ++ c) ws) as (st & Hrun & Hw & Hb & Hq).
      { apply Nat.leb_gt in Hle. exact Hle. }
      { lia. }
      exists st. split; [exact Hrun|]. split; [|auto].
      rewrite Hw. change (concat (c :: cs)) with (c ++ concat cs).
      now rewrite app_assoc.
Qed.

(** The same from any buffer: one more round for the first write. *)
Lemma playback_completes (cs : list bytes) (fuel : nat) (buf : bytes) :
  2 * length cs + 2 <= fuel ->
  exists st,
    playback fs fuel (PState buf (request_tts_items cs) []) = Finished st /\
    concat (written st)
    = take (fs * (length (buf ++ concat cs) / fs)) (buf ++ concat cs) /\
    buffer st = [] /\ queue st = [].
Proof using fs_pos.
  intros Hfuel.
  destruct (fs <=? length buf) eqn:Hle.
  - destruct fuel as [|fuel]; [lia|].
    cbn [playback]. unfold playback_step at 1. cbn [buffer queue written].
    rewrite Hle.
    pose proof (Nat.div_mod_eq (length buf) fs) as E.
    pose proof (Nat.mod_upper_bound (length buf) fs) as U.
    set (k := length buf / fs * fs) in *.
    destruct (playback_drains cs fuel (drop k buf) ([] ++ [take k buf]))
      as (st & Hrun & Hw & Hb & Hq).
    { rewrite length_drop. unfold k. lia. }
    { lia. }
    exists st. split; [exact Hrun|]. split; [|auto].
    rewrite Hw. cbn [app concat]. rewrite app_nil_r.
    assert (buf ++ concat cs = take k buf ++ drop k buf ++ concat cs) as ->
      by (now rewrite app_assoc, take_drop).
    rewrite (take_frames_app (length buf / fs) (take k buf)
               (drop k buf ++ concat cs)); [reflexivity|].
    rewrite length_take. unfold k. lia.
  - apply Nat.leb_gt in Hle.
    destruct (playback_drains cs fuel buf []) as (st & Hrun & Hw & Hb & Hq);
      [assumption | lia |].
    exists st. auto.
Qed.

End ClientCompletes.

(** Priming on a stream that reaches the threshold stops before the
    sentinel. *)
Lemma prime_long (min_size : nat) (cs : list bytes) : forall buf,
  min_size <= length (buf ++ concat cs) ->
  exists buf' cs',
    Client.prime min_size buf (Client.request_tts_items cs)
    = Client.Finished (buf', Client.request_tts_items cs') /\
    buf' ++ concat cs' = buf ++ concat cs /\
    length cs' <= length cs.
Proof.
  unfold Client.request_tts_items.
  induction cs as [|c cs IH]; intros buf H; cbn [Client.prime map app].
  - cbn in H. rewrite app_nil_r in H.
    assert ((length buf <? min_size) = false) as -> by (apply Nat.ltb_ge; lia).
    exists buf, []. auto.
  - destruct (length buf <? min_size).
    + change (concat (c :: cs)) with (c ++ concat cs) in *.
      rewrite app_assoc in H.
      destruct (IH (buf ++ c) H) as (buf' & cs' & Hp & He & Hl).
      exists buf', cs'. rewrite Hp, He, <- app_assoc. cbn [length]. auto.
    + exists buf, (c :: cs). auto.
Qed.

(** A stream that reaches the threshold is played to its end. *)
Lemma play_audio_with_completes (fs min_size fuel : nat) (cs : list bytes) :
  0 < fs ->
  min_size <= length (concat cs) ->
  2 * length cs + 2 <= fuel ->
  exists st,
    Client.play_audio_with fs min_size fuel (Client.request_tts_items cs)
    = Client.Finished st /\
    concat (Client.written st)
    = take (fs * (length (concat cs) / fs)) (concat cs) /\
    Client.buffer st = [] /\ Client.queue st = [].
Proof.
  intros Hfs Hmin Hfuel. unfold Client.play_audio_with.
  destruct (prime_long min_size cs [] Hmin) as (buf & cs' & -> & He & Hl).
  destruct (playback_completes fs Hfs cs' fuel buf) as (st & Hrun & Hw & Hb & Hq);
    [lia|].
  exists st. split; [exact Hrun|]. cbn [app] in He. rewrite He in Hw. auto.
Qed.

(** X1: whatever is on the queue and however long the loop runs, the
    blocks that [play_audio] has handed to the sink, joined in order, are
    a prefix of the bytes of the chunks on the queue, joined in order:
    nothing is written twice, out of order, or that was not received. *)
Theorem play_audio_writes_prefix (fs min_size fuel : nat) (q : list item) :
  0 < fs ->
  exists rest,
    payload q
    = concat (Client.written
                (Client.state_of (Client.play_audio_with fs min_size fuel q)))
        ++ rest.
Proof.
  intros Hfs. unfold Client.play_audio_with.
  destruct (prime_conserves min_size q []) as (rest0 & H0).
  cbn [app] in H0.
  destruct (Client.prime min_size [] q) as [[buf q']|[buf q']|[buf q']];
    cbn [Client.state_of Client.written concat app fst snd] in *;
    try (eexists; reflexivity).
  destruct (playback_conserves fs Hfs fuel (Client.PState buf q' []))
    as (rest1 & H1).
  cbn [Client.written Client.buffer Client.queue concat app] in H1.
  exists (rest1 ++ rest0).
  rewrite H0, app_assoc, H1, <- app_assoc. reflexivity.
Qed.

Lemma play_audio_writes_prefix_witness :
  exists rest,
    payload [Some (b "AAA"); Some (b "BB"); None]
    = concat (Client.written
                (Client.state_of
                   (Client.play_audio 7 [Some (b "AAA"); Some (b "BB"); None])))
        ++ rest.
Proof.
  apply (play_audio_writes_prefix 2 Client.min_buffer_size 7
           [Some (b "AAA"); Some (b "BB"); None]).
  lia.
Defined.

(** X2: a stream of chunks that reaches the priming threshold, followed
    by the sentinel, is played to its end: given two rounds per chunk and
    two more, the loop is left, the sink has got every whole frame of the
    stream in order, and only the bytes of a last partial frame, fewer
    than one frame, are dropped. *)
Theorem play_audio_plays_long_stream (fs min_size fuel : nat) (cs : list bytes) :
  0 < fs ->
  min_size <= length (concat cs) ->
  2 * length cs + 2 <= fuel ->
  exists st,
    Client.play_audio_with fs min_size fuel (Client.request_tts_items cs)
    = Client.Finished st /\
    concat (Client.written st)
    = take (fs * (length (concat cs) / fs)) (concat cs) /\
    length (concat cs) - length (concat (Client.written st))
    = length (concat cs) mod fs /\
    Client.buffer st = [] /\ Client.queue st = [].
Proof.
  intros Hfs Hmin Hfuel.
  destruct (play_audio_with_completes fs min_size fuel cs Hfs Hmin Hfuel)
    as (st & Hrun & Hw & Hb & Hq).
  exists st. split; [exact Hrun|]. split; [exact Hw|]. split; [|auto].
  rewrite Hw, length_take.
  pose proof (Nat.div_mod_eq (length (concat cs)) fs). lia.
Qed.

Lemma play_audio_plays_long_stream_witness :
  exists st,
    Client.play_audio_with 2 4 4 (Client.request_tts_items [b "AAAAA"])
    = Client.Finished st /\
    concat (Client.written st) = take (2 * (5 / 2)) (b "AAAAA") /\
    5 - length (concat (Client.written st)) = 5 mod 2 /\
    Client.buffer st = [] /\ Client.queue st = [].
Proof.
  apply (play_audio_plays_long_stream 2 4 4 [b "AAAAA"]); cbn; lia.
Defined.

(** X3: on every path through [request_tts] the queue gains exactly the
    blocks of the accepted body that are not empty, each as it was
    received and in the order received, and then one sentinel, which is
    its last item; nothing of an error response is passed on, and when no
    response comes the sentinel is all; with [--write] the file gets the
    same blocks in the same order, and without it nothing. *)
Theorem request_tts_one_sentinel (write_to_file : bool) (x : Client.exchange)
    (st : Client.rstate) :
  Client.chunk_queue (Client.request_tts write_to_file x st)
  = Client.chunk_queue st
    ++ map Some (List.filter Client.truthy (accepted_body x)) ++ [None] /\
  Client.wav_frames (Client.request_tts write_to_file x st)
  = Client.wav_frames st
    ++ (if write_to_file then List.filter Client.truthy (accepted_body x) else []) /\
  (forall c, c ∈ List.filter Client.truthy (accepted_body x) <->
             c ∈ accepted_body x /\ c <> []) /\
  concat (List.filter Client.truthy (accepted_body x)) = concat (accepted_body x) /\
  (x = Client.NoResponse -> accepted_body x = []) /\
  (forall status_code content broken,
      x = Client.Response status_code content broken ->
      accepted_body x
      = if Client.raise_for_status status_code then [] else content).
Proof.
  split; [|split; [|split; [|split; [|split]]]].
  - unfold Client.request_tts, accepted_body.
    destruct x as [|code content broken]; [reflexivity|].
    destruct (Client.raise_for_status code); [reflexivity|].
    rewrite receive_spec. destruct broken; cbn; now rewrite <- app_assoc.
  - unfold Client.request_tts, accepted_body.
    destruct x as [|code content broken];
      [cbn; destruct write_to_file; now rewrite app_nil_r|].
    destruct (Client.raise_for_status code);
      [cbn; destruct write_to_file; now rewrite app_nil_r|].
    rewrite receive_spec. destruct broken; reflexivity.
  - intros c. rewrite !list_elem_of_In, List.filter_In.
    destruct c; cbn; intuition congruence.
  - apply concat_filter_truthy.
  - now intros ->.
  - now intros code content broken ->.
Qed.

(** X4: when the request fails, be it that no response comes or that the
    status is an error such as the 503 of a busy server, the queue holds
    the sentinel alone, nothing is written to the file or to the sink,
    and the playback loop is stuck in [chunk_queue.get()] from its first
    round on. *)
Theorem client_stuck_after_failed_request (write_to_file : bool)
    (x : Client.exchange) (fuel : nat) :
  (x = Client.NoResponse \/
   exists code content broken,
     x = Client.Response code content broken /\ 400 <= code < 600) ->
  Client.request_tts write_to_file x (Client.RState [] [])
  = Client.RState [None] [] /\
  Client.client write_to_file x (S fuel)
  = Client.Blocked (Client.PState [] [] []).
Proof.
  intros H.
  assert (Client.request_tts write_to_file x (Client.RState [] [])
          = Client.RState [None] []) as Hq.
  { destruct H as [->|(code & content & broken & -> & Hc)]; [reflexivity|].
    unfold Client.request_tts, Client.raise_for_status.
    assert (((400 <=? code) && (code <? 600)) = true) as ->; [|reflexivity].
    apply andb_true_intro. split; [apply Nat.leb_le | apply Nat.ltb_lt]; lia. }
  split; [exact Hq|].
  unfold Client.client. rewrite Hq. reflexivity.
Qed.

Lemma client_stuck_after_failed_request_witness :
  Client.request_tts false (Client.Response 503 [b "busy"] false)
    (Client.RState [] [])
  = Client.RState [None] [] /\
  Client.client false (Client.Response 503 [b "busy"] false) 1
  = Client.Blocked (Client.PState [] [] []).
Proof.
  apply (client_stuck_after_failed_request false
           (Client.Response 503 [b "busy"] false) 0).
  right. exists 503, [b "busy"], false. split; [reflexivity | lia].
Defined.

(** X5: the client comes to an end exactly when the accepted body holds
    at least [min_buffer_size] (6144) bytes: then some number of rounds
    lets the playback loop finish, and otherwise none does. *)
Theorem client_finishes_iff_long (write_to_file : bool) (x : Client.exchange) :
  (exists fuel st, Client.client write_to_file x fuel = Client.Finished st)
  <-> Client.min_buffer_size <= length (concat (accepted_body x)).
Proof.
  unfold Client.client. rewrite request_tts_queue.
  pose proof (concat_filter_truthy (accepted_body x)) as Hc.
  set (cs := List.filter Client.truthy (accepted_body x)) in *.
  rewrite <- Hc. split.
  - intros (fuel & st & Hrun).
    destruct (Nat.le_gt_cases Client.min_buffer_size (length (concat cs)))
      as [|Hlt]; [assumption|exfalso].
    unfold Client.play_audio, Client.play_audio_with in Hrun.
    rewrite (prime_short Client.min_buffer_size cs []) in Hrun by exact Hlt.
    revert Hrun. apply playback_exhausted_never_finishes.
    unfold Client.frame_size, Client.sample_size_paInt16, Client.CHANNELS. lia.
  - intros Hmin.
    destruct (play_audio_with_completes Client.frame_size
                Client.min_buffer_size (2 * length cs + 2) cs)
      as (st & Hrun & _); try lia; try assumption.
    + unfold Client.frame_size, Client.sample_size_paInt16, Client.CHANNELS. lia.
    + exists (2 * length cs + 2), st. exact Hrun.
Qed.

(** * More on the generators *)

Section GeneratorsAnyQueue.
Import Py Common.

Lemma generator_loop_forwards_any (e : engine) (emit : bool) (q : list item) :
  (generator_loop e emit true q).1 = map Chunk (before_sentinel q) /\
  (generator_loop e emit true q).2 <> Failed /\
  ((exists rest, (generator_loop e emit true q).2 = Terminated rest) -> None ∈ q).
Proof.
  induction q as [|[c|] q (IH1 & IH2 & IH3)].
  - cbn. split; [reflexivity|]. split; [discriminate|].
    intros (rest & H). discriminate.
  - cbn [generator_loop negb before_sentinel].
    destruct (generator_loop e emit true q) as [ys r]. cbn in *.
    rewrite IH1. split; [reflexivity|]. split; [assumption|].
    intros H. apply elem_of_cons. right. auto.
  - cbn. split; [reflexivity|]. split; [discriminate|].
    intros _. constructor.
Qed.

(** What either generator does on any queue. *)
Lemma generator_loop_any (e : engine) (emit : bool) (q : list item) :
  header_count (generator_loop e emit false q).1 <= 1 /\
  ((generator_loop e emit false q).2 <> Failed ->
   chunks_of (generator_loop e emit false q).1 = before_sentinel q) /\
  ((exists rest, (generator_loop e emit false q).2 = Terminated rest) ->
   None ∈ q) /\
  ((generator_loop e emit false q).2 = Failed ->
   emit = true /\ create_wave_header_for_engine e = None /\
   (generator_loop e emit false q).1 = []).
Proof.
  destruct q as [|[c|] q].
  - cbn. repeat split; try lia; try discriminate.
    intros (rest & H). discriminate.
  - cbn [generator_loop negb].
    destruct (generator_loop_forwards_any e emit q) as (H1 & H2 & H3).
    destruct emit.
    + destruct (create_wave_header_for_engine e) as [h|] eqn:Hh.
      * destruct (generator_loop e true true q) as [ys r]. cbn in *. subst ys.
        unfold header_count. cbn. fold (header_count (map Chunk (before_sentinel q))).
        rewrite header_count_Chunk, chunks_of_Chunk.
        repeat split; try lia; try reflexivity; try contradiction.
        intros H. apply elem_of_cons. right. auto.
      * cbn. repeat split; try lia; try contradiction; try reflexivity.
        intros (rest & H). discriminate.
    + destruct (generator_loop e false true q) as [ys r]. cbn in *. subst ys.
      unfold header_count. cbn. fold (header_count (map Chunk (before_sentinel q))).
      rewrite header_count_Chunk, chunks_of_Chunk.
      repeat split; try lia; try reflexivity; try contradiction.
      intros H. apply elem_of_cons. right. auto.
  - cbn. repeat split; try lia; try discriminate.
    intros _. constructor.
Qed.

(** With no header due the generator forwards, and cannot fail. *)
Lemma generator_loop_plain_any (e : engine) (q : list item) :
  (generator_loop e false false q).1 = map Chunk (before_sentinel q) /\
  (generator_loop e false false q).2 <> Failed.
Proof.
  destruct q as [|[c|] q]; cbn [generator_loop negb before_sentinel].
  - split; [reflexivity | discriminate].
  - destruct (generator_loop_forwards_any e false q) as (H1 & H2 & _).
    destruct (generator_loop e false true q) as [ys r]. cbn in *.
    now rewrite H1.
  - split; [reflexivity | discriminate].
Qed.

Lemma header_blocks_front (due : bool) (h : bytes) (cs : list bytes) :
  Forall (fun x => is_header x = true) (header_blocks due h cs) /\
  length (header_blocks due h cs) <= 1.
Proof.
  destruct cs; [split; [constructor | cbn; lia]|].
  destruct due; cbn; split; repeat constructor.
Qed.

End GeneratorsAnyQueue.

(** X6: what the generator of either server does on any queue.  A queue
    holds chunks [cs] and then a sentinel, or chunks [cs] alone.  If a
    header is due, there is a chunk, and the header cannot be built (which
    is when the engine reports a sample rate that the [wave] module
    rejects), the generator ends at the first chunk and has yielded
    nothing.  In every other case it yields the chunks [cs] in order,
    behind the header if one is due and there is a chunk, and nothing
    that is queued behind the sentinel; it then terminates if the queue
    holds a sentinel, and otherwise waits for ever.  In [server.py] this is
    the generator that gets [gen_lock]: it gives the lock back when it
    ends, and keeps it when it waits for ever; and a generator that finds
    the lock held for ever yields nothing, whatever its queue. *)
Theorem generator_on_any_queue (e : Common.engine) (send_wave_headers : bool)
    (speaking : bool) (cs : list bytes) (rest : list item) :
  let due := server_header_due e send_wave_headers in
  let server q :=
    Server.audio_chunk_generator_with_lock Server.Free e q send_wave_headers in
  let async q :=
    AsyncServer.audio_chunk_generator
      (AsyncServer.Handler e q speaking) send_wave_headers in
  (forall q, (exists cs' rest', q = stream_items cs' rest') \/
             (exists cs', q = map Some cs')) /\
  (forall q,
      Server.audio_chunk_generator_with_lock Server.HeldForEver e q
        send_wave_headers
      = (Server.WaitsForLock, Server.HeldForEver)) /\
  (Common.create_wave_header_for_engine e = None <-> ~ wave_rate e) /\
  (cs <> [] -> Common.create_wave_header_for_engine e = None ->
     (due = true ->
        server (stream_items cs rest)
        = (Server.Streams [] Common.Failed, Server.Free) /\
        server (map Some cs) = (Server.Streams [] Common.Failed, Server.Free)) /\
     (send_wave_headers = true ->
        async (stream_items cs rest) = ([], Common.Failed) /\
        async (map Some cs) = ([], Common.Failed))) /\
  (forall h,
      (cs <> [] -> due = true ->
       Common.create_wave_header_for_engine e = Some h) ->
      server (stream_items cs rest)
      = (Server.Streams (header_blocks due h cs ++ map Common.Chunk cs)
           (Common.Terminated rest),
         Server.Free) /\
      server (map Some cs)
      = (Server.Streams (header_blocks due h cs ++ map Common.Chunk cs)
           Common.Starved,
         Server.HeldForEver)) /\
  (forall h,
      (cs <> [] -> send_wave_headers = true ->
       Common.create_wave_header_for_engine e = Some h) ->
      async (stream_items cs rest)
      = (header_blocks send_wave_headers h cs ++ map Common.Chunk cs,
         Common.Terminated rest) /\
      async (map Some cs)
      = (header_blocks send_wave_headers h cs ++ map Common.Chunk cs,
         Common.Starved)).
Proof.
  cbv zeta.
  unfold Server.audio_chunk_generator_with_lock, Server.audio_chunk_generator,
    AsyncServer.audio_chunk_generator.
  cbn [AsyncServer.engine_of AsyncServer.audio_queue].
  fold (server_header_due e send_wave_headers).
  split; [exact queue_shape|].
  split; [reflexivity|].
  split.
  { rewrite create_wave_header_for_engine_eq. unfold wave_rate. split.
    - intros Hn Hr. destruct (wave_header_mono16 _ Hr) as (h & Hh & _). congruence.
    - intros Hr. apply wave_header_mono16_fails. lia. }
  split.
  { intros Hcs Hn. split.
    - intros ->.
      destruct (generator_loop_fails e cs rest Hcs Hn) as [-> ->]. auto.
    - intros ->.
      destruct (generator_loop_fails e cs rest Hcs Hn) as [-> ->]. auto. }
  split.
  - intros h Hh.
    rewrite (generator_loop_stream e _ h cs rest Hh).
    rewrite (generator_loop_starved e _ h cs Hh). auto.
  - intros h Hh.
    rewrite (generator_loop_stream e _ h cs rest Hh).
    rewrite (generator_loop_starved e _ h cs Hh). auto.
Qed.

(** X7: in [server.py] the content type of a [/tts] request that is let in is
    [audio/mpeg] exactly when the current engine is named [elevenlabs],
    and [audio/wav] otherwise; the generator is told to send headers
    exactly for browser requests; and for the engine named [elevenlabs]
    the generator yields the chunks alone, with no header and without
    calling the header builder, whatever the request. *)
Theorem server_tts_content_type (req : Common.request) (text : string)
    (w w' : Server.world) (resp : Common.streaming_response)
    (q : list item) (send_wave_headers : bool) :
  Server.tts req text w = (Py.Ok resp, w') ->
  (Common.media_type resp = "audio/mpeg"
   <-> Common.engine_name (Server.current_engine w) = "elevenlabs") /\
  (Common.media_type resp = "audio/wav"
   <-> Common.engine_name (Server.current_engine w) <> "elevenlabs") /\
  Common.body_send_wave_headers resp = Common.is_browser_request req /\
  (Common.engine_name (Server.current_engine w) = "elevenlabs" ->
   (Server.audio_chunk_generator (Server.current_engine w) q
      send_wave_headers).1
   = map Common.Chunk (before_sentinel q) /\
   (Server.audio_chunk_generator (Server.current_engine w) q
      send_wave_headers).2 <> Common.Failed).
Proof.
  intros Hrun.
  destruct (Server.semaphore w) as [|v] eqn:Hs.
  { rewrite tts_rejects in Hrun by assumption. discriminate. }
  rewrite (tts_lets_in _ _ _ v) in Hrun by assumption.
  injection Hrun as <- _. cbn [Common.media_type Common.body_send_wave_headers].
  destruct (String.eqb_spec (Common.engine_name (Server.current_engine w))
              "elevenlabs") as [Heq|Hne]; cbn [negb].
  - split; [tauto|]. split; [split; [discriminate | contradiction]|].
    split; [reflexivity|]. intros _.
    unfold Server.audio_chunk_generator. rewrite Heq. cbn [String.eqb].
    rewrite andb_false_r.
    destruct (generator_loop_plain_any (Server.current_engine w) q) as (H1 & H2).
    split; [exact H1 | exact H2].
  - split; [split; [discriminate | contradiction]|].
    split; [tauto|]. split; [reflexivity | contradiction].
Qed.

Lemma server_tts_content_type_witness :
  (Common.media_type
     (Common.StreamingResponse 0 true "audio/mpeg") = "audio/mpeg"
   <-> Common.engine_name engine_mpeg = "elevenlabs") /\
  (Common.media_type
     (Common.StreamingResponse 0 true "audio/mpeg") = "audio/wav"
   <-> Common.engine_name engine_mpeg <> "elevenlabs") /\
  Common.body_send_wave_headers (Common.StreamingResponse 0 true "audio/mpeg")
  = Common.is_browser_request browser /\
  (Common.engine_name engine_mpeg = "elevenlabs" ->
   (Server.audio_chunk_generator engine_mpeg (stream_items [b "AAAA"] [])
      true).1
   = map Common.Chunk (before_sentinel (stream_items [b "AAAA"] [])) /\
   (Server.audio_chunk_generator engine_mpeg (stream_items [b "AAAA"] [])
      true).2 <> Common.Failed).
Proof.
  apply (server_tts_content_type browser "hi" (Server.init engine_mpeg)
           (Server.tts browser "hi" (Server.init engine_mpeg)).2
           (Common.StreamingResponse 0 true "audio/mpeg")
           (stream_items [b "AAAA"] []) true).
  vm_compute. reflexivity.
Defined.

(** * More on the worker and the gate of server.py *)

Section ServerMore.
Import Py Common Server.




End ServerMore.

(** X8: whatever the stream does, a run of [play_text_to_speech] gives
    back exactly one permit, as its last action and after all its work;
    it leaves the text marked as not speaking and every other text's mark
    as it was; it starts no thread, makes no queue and touches no queue
    but its own; and it lets the exception of [feed] or [play] through. *)
Theorem server_worker_effect (syn : Common.synthesis) (text : string)
    (audio_queue : nat) (w : Server.world) :
  let r := Server.play_text_to_speech syn text audio_queue w in
  Server.semaphore r.2 = S (Server.semaphore w) /\
  (exists work,
      Server.trace r.2 = Server.trace w ++ work ++ [Server.EvRelease] /\
      (Server.EvRelease ∉ work)) /\
  Server.is_currently_speaking text r.2 = false /\
  (forall t, t <> text ->
     Server.is_currently_speaking t r.2 = Server.is_currently_speaking t w) /\
  Server.threads r.2 = Server.threads w /\
  length (Server.queues r.2) = length (Server.queues w) /\
  (forall j, j <> audio_queue ->
     Server.queues r.2 !! j = Server.queues w !! j) /\
  (r.1 = Py.Ok tt <->
   Common.feed_error syn = None /\ Common.play_error syn = None) /\
  (forall e, Common.feed_error syn = Some e -> r.1 = Py.Raise e) /\
  (forall e, Common.feed_error syn = None -> Common.play_error syn = Some e ->
     r.1 = Py.Raise e).
Proof.
  cbv zeta.
  destruct (server_release_is_last syn text audio_queue w)
    as (work & Htrace & Hwork & _ & _).
  rewrite play_text_to_speech_run in *.
  cbn [fst snd Server.semaphore Server.trace Server.threads Server.queues] in *.
  split; [reflexivity|]. split; [exists work; auto|].
  unfold Server.is_currently_speaking. cbn [Server.current_speaking].
  split; [now rewrite lookup_insert_eq|].
  split; [intros t Ht; now rewrite !lookup_insert_ne by congruence|].
  split; [reflexivity|]. split; [apply length_alter|].
  split; [intros j Hj; apply list_lookup_alter_ne; congruence|].
  unfold worker_result.
  destruct (Common.feed_error syn) as [e1|], (Common.play_error syn) as [e2|];
    repeat split; try discriminate; try congruence;
    try (intros [? ?]; discriminate).
Qed.

(** X9: what a run of the worker leaves on its queue depends on how the
    stream ends: nothing new when [feed] raises, the chunks in the order
    of the engine when [play] raises after them, and the chunks followed
    by the sentinel on a clean run.  So the queue gets its sentinel
    exactly on a clean run, and a generator reading it can leave its loop
    as terminated only then. *)
Theorem server_worker_queue (syn : Common.synthesis) (text : string)
    (audio_queue : nat) (w : Server.world) (q0 : list item) :
  Server.queues w !! audio_queue = Some q0 ->
  None ∉ q0 ->
  exists q',
    Server.queues (Server.play_text_to_speech syn text audio_queue w).2
      !! audio_queue = Some q' /\
    (forall e, Common.feed_error syn = Some e -> q' = q0) /\
    (forall e, Common.feed_error syn = None -> Common.play_error syn = Some e ->
       q' = q0 ++ map Some (Common.chunks syn)) /\
    (Common.feed_error syn = None -> Common.play_error syn = None ->
       q' = q0 ++ stream_items (Common.chunks syn) []) /\
    (None ∈ q' <->
     Common.feed_error syn = None /\ Common.play_error syn = None) /\
    (forall e send_wave_headers,
       (exists rest,
           (Server.audio_chunk_generator e q' send_wave_headers).2
           = Common.Terminated rest) ->
       Common.feed_error syn = None /\ Common.play_error syn = None).
Proof.
  intros Hq0 Hnone.
  exists (q0 ++ worker_puts syn).
  assert (None ∈ q0 ++ worker_puts syn <->
          Common.feed_error syn = None /\ Common.play_error syn = None) as Hiff.
  { rewrite elem_of_app, worker_puts_sentinel. tauto. }
  split.
  { rewrite play_text_to_speech_run. cbn [snd Server.queues].
    rewrite list_lookup_alter_eq, Hq0. reflexivity. }
  unfold worker_puts in *.
  split; [intros e ->; now rewrite app_nil_r|].
  split; [intros e -> ->; now rewrite app_nil_r|].
  split; [intros -> ->; reflexivity|].
  split; [exact Hiff|].
  intros e swh Hterm. apply Hiff.
  unfold Server.audio_chunk_generator in Hterm.
  eapply generator_loop_any. exact Hterm.
Qed.

Lemma server_worker_queue_witness :
  exists q',
    Server.queues
      (Server.play_text_to_speech play_fails "hi" 0
         (Server.tts script "hi" (Server.init engine_pcm16)).2).2
      !! 0 = Some q' /\
    (forall e, Common.feed_error play_fails = Some e -> q' = []) /\
    (forall e, Common.feed_error play_fails = None ->
       Common.play_error play_fails = Some e ->
       q' = [] ++ map Some (Common.chunks play_fails)) /\
    (Common.feed_error play_fails = None -> Common.play_error play_fails = None ->
       q' = [] ++ stream_items (Common.chunks play_fails) []) /\
    (None ∈ q' <->
     Common.feed_error play_fails = None /\ Common.play_error play_fails = None) /\
    (forall e send_wave_headers,
       (exists rest,
           (Server.audio_chunk_generator e q' send_wave_headers).2
           = Common.Terminated rest) ->
       Common.feed_error play_fails = None /\
       Common.play_error play_fails = None).
Proof.
  apply (server_worker_queue play_fails "hi" 0
           (Server.tts script "hi" (Server.init engine_pcm16)).2 []).
  - reflexivity.
  - intros H. inversion H.
Defined.

(** X10: a request that [/tts] lets in, followed by a clean run of its
    worker, streams the whole job if its generator gets [gen_lock]: the
    response reads the queue that the worker fills, the generator yields
    the chunks of the engine in their order (behind the header, for a
    browser), ends at the sentinel and gives the lock back.  If the lock
    is held for ever, as it is once the generator of an earlier job has
    starved, the response yields nothing of that queue.  In both cases
    the permit and the list of threads are afterwards as before the
    request.  The engine is taken to report a sample rate that the
    [wave] module accepts if the request comes from a browser. *)
Theorem server_streams_clean_job (req : Common.request) (text : string)
    (syn : Common.synthesis) (w : Server.world) :
  Server.semaphore w = 1 ->
  Common.feed_error syn = None -> Common.play_error syn = None ->
  (Common.is_browser_request req = true -> wave_rate (Server.current_engine w)) ->
  exists resp w1 q front,
    Server.tts req text w = (Py.Ok resp, w1) /\
    Server.threads w1 !! length (Server.threads w)
    = Some (Server.Worker text (Common.body_queue resp)) /\
    let w2 :=
      Server.remove_thread (length (Server.threads w))
        (Server.thread_body syn
           (Server.Worker text (Common.body_queue resp)) w1).2 in
    Server.queues w2 !! Common.body_queue resp = Some q /\
    q = stream_items (Common.chunks syn) [] /\
    Server.audio_chunk_generator_with_lock Server.Free
      (Server.current_engine w2) q (Common.body_send_wave_headers resp)
    = (Server.Streams (front ++ map Common.Chunk (Common.chunks syn))
         (Common.Terminated []),
       Server.Free) /\
    Server.audio_chunk_generator_with_lock Server.HeldForEver
      (Server.current_engine w2) q (Common.body_send_wave_headers resp)
    = (Server.WaitsForLock, Server.HeldForEver) /\
    Forall (fun x => Common.is_header x = true) front /\
    length front <= 1 /\
    Server.semaphore w2 = Server.semaphore w /\
    Server.threads w2 = Server.threads w.
Proof.
  intros Hs Hf Hp Hrate.
  assert (exists h, Common.is_browser_request req = true ->
                    Common.create_wave_header_for_engine (Server.current_engine w)
                    = Some h) as [h Hh].
  { destruct (Common.is_browser_request req).
    - destruct (create_wave_header_for_engine_ok _ (Hrate eq_refl)) as (h & Hh & _).
      exists h. auto.
    - exists []. discriminate. }
  rewrite (tts_lets_in req text w 0 Hs).
  eexists _, _, (stream_items (Common.chunks syn) []),
    (header_blocks (server_header_due (Server.current_engine w)
                      (Common.is_browser_request req)) h (Common.chunks syn)).
  split; [reflexivity|].
  cbn [Common.body_queue Common.body_send_wave_headers Server.threads].
  split; [rewrite lookup_app_r by lia; now rewrite Nat.sub_diag|].
  cbv zeta. cbn [Server.thread_body]. rewrite play_text_to_speech_run.
  unfold Server.remove_thread.
  cbn [snd Server.queues Server.threads Server.semaphore Server.current_engine].
  split.
  { rewrite list_lookup_alter_eq, lookup_app_r by lia.
    rewrite Nat.sub_diag. cbn. unfold worker_puts, stream_items.
    now rewrite Hf, Hp. }
  split; [reflexivity|].
  split.
  { unfold Server.audio_chunk_generator_with_lock, Server.audio_chunk_generator.
    fold (server_header_due (Server.current_engine w)
            (Common.is_browser_request req)).
    rewrite (generator_loop_run _ _ h); [reflexivity|].
    intros Hd. apply Hh. now apply andb_prop in Hd. }
  split; [reflexivity|].
  split; [apply header_blocks_front|].
  split; [apply header_blocks_front|].
  split; [now rewrite Hs|].
  rewrite delete_middle. apply app_nil_r.
Qed.

Lemma server_streams_clean_job_witness :
  exists resp w1 q front,
    Server.tts browser "hi" (Server.init engine_pcm16) = (Py.Ok resp, w1) /\
    Server.threads w1 !! length (Server.threads (Server.init engine_pcm16))
    = Some (Server.Worker "hi" (Common.body_queue resp)) /\
    let w2 :=
      Server.remove_thread (length (Server.threads (Server.init engine_pcm16)))
        (Server.thread_body plays_two
           (Server.Worker "hi" (Common.body_queue resp)) w1).2 in
    Server.queues w2 !! Common.body_queue resp = Some q /\
    q = stream_items (Common.chunks plays_two) [] /\
    Server.audio_chunk_generator_with_lock Server.Free
      (Server.current_engine w2) q (Common.body_send_wave_headers resp)
    = (Server.Streams (front ++ map Common.Chunk (Common.chunks plays_two))
         (Common.Terminated []),
       Server.Free) /\
    Server.audio_chunk_generator_with_lock Server.HeldForEver
      (Server.current_engine w2) q (Common.body_send_wave_headers resp)
    = (Server.WaitsForLock, Server.HeldForEver) /\
    Forall (fun x => Common.is_header x = true) front /\
    length front <= 1 /\
    Server.semaphore w2 = Server.semaphore (Server.init engine_pcm16) /\
    Server.threads w2 = Server.threads (Server.init engine_pcm16).
Proof.
  apply (server_streams_clean_job browser "hi" plays_two (Server.init engine_pcm16));
    try reflexivity.
  intros _. unfold wave_rate. vm_compute. split; reflexivity.
Defined.

Section ServerBurst.
Import Py Common Server.

Lemma serve_busy (rs : list (request * string)) : forall w,
  semaphore w = 0 ->
  serve rs w = map (fun _ => Raise busy) rs.
Proof.
  induction rs as [|[req text] rs IH]; intros w Hs; [reflexivity|].
  cbn [serve map]. rewrite tts_rejects by assumption.
  f_equal. apply IH. reflexivity.
Qed.

End ServerBurst.

(** X11: of any number of [/tts] requests that reach [server.py] in a row
    while the permit is free and no worker ends in between, the first is
    let in and every other one is turned away with the 503 error; the
    only thread started is the worker of the first. *)
Theorem tts_burst_first_only (req : Common.request) (text : string)
    (rs : list (Common.request * string)) (w : Server.world) :
  Server.semaphore w = 1 ->
  exists resp,
    serve ((req, text) :: rs) w
    = Py.Ok resp :: map (fun _ => Py.Raise Server.busy) rs /\
    Common.body_queue resp = length (Server.queues w) /\
    Server.threads (Server.tts req text w).2
    = Server.threads w ++ [Server.Worker text (length (Server.queues w))].
Proof.
  intros Hs. cbn [serve]. rewrite (tts_lets_in req text w 0 Hs).
  eexists. split.
  - f_equal. apply serve_busy. reflexivity.
  - split; reflexivity.
Qed.

Lemma tts_burst_first_only_witness :
  exists resp,
    serve [(browser, "one"); (script, "two"); (browser, "three")]
      (Server.init engine_pcm16)
    = Py.Ok resp
        :: map (fun _ => Py.Raise Server.busy) [(script, "two"); (browser, "three")] /\
    Common.body_queue resp = length (Server.queues (Server.init engine_pcm16)) /\
    Server.threads (Server.tts browser "one" (Server.init engine_pcm16)).2
    = Server.threads (Server.init engine_pcm16) ++ [Server.Worker "one" 0].
Proof.
  apply (tts_burst_first_only browser "one"
           [(script, "two"); (browser, "three")] (Server.init engine_pcm16)).
  reflexivity.
Defined.

(** X12: in every state that [server.py] can reach through requests to
    [/tts] and [/tts-text] and through runs of started threads, at most
    one thread is started and not finished, at most one job is in flight,
    the semaphore holds at most its one permit, and the permit is free
    only while no thread is running. *)
Theorem server_gate_invariant (e : Common.engine) (w : Server.world) :
  Server.reachable e w ->
  length (Server.threads w) <= 1 /\
  Server.in_flight w <= 1 /\
  Server.semaphore w <= 1 /\
  (Server.semaphore w = 1 -> Server.threads w = []) /\
  (Server.in_flight w = 1 -> Server.semaphore w = 0).
Proof.
  intros H. apply gate_inv_reachable in H. unfold gate_inv in H.
  pose proof (in_flight_le_threads w).
  repeat split; try lia.
  intros Hs. apply length_zero_iff_nil. lia.
Qed.

Lemma server_gate_invariant_witness :
  let w := (Server.tts browser "hi" (Server.init engine_pcm16)).2 in
  length (Server.threads w) <= 1 /\
  Server.in_flight w <= 1 /\
  Server.semaphore w <= 1 /\
  (Server.semaphore w = 1 -> Server.threads w = []) /\
  (Server.in_flight w = 1 -> Server.semaphore w = 0).
Proof.
  apply (server_gate_invariant engine_pcm16
           (Server.tts browser "hi" (Server.init engine_pcm16)).2).
  eapply rtc_l; [apply (Server.step_tts browser "hi") | apply rtc_refl].
Defined.



(** * Browser detection and the header bytes *)

Section BrowserDetection.
Import Py Common.

Lemma append_String (c : ascii) (a post : string) :
  String.append (String c a) post = String c (String.append a post).
Proof. reflexivity. Qed.

Lemma prefix_spec (a : string) : forall s,
  String.prefix a s = true <-> exists post, s = String.append a post.
Proof.
  induction a as [|c a IH]; intros s.
  - destruct s; cbn; (split; [intros _; eexists; reflexivity | auto]).
  - destruct s as [|d s]; cbn.
    + split; [discriminate | intros (post & H); discriminate].
    + destruct (Ascii.ascii_dec c d) as [->|Hne].
      * rewrite IH. split; intros (post & H); exists post;
          rewrite append_String in *; congruence.
      * split; [discriminate|]. intros (post & H).
        rewrite append_String in H. congruence.
Qed.

Lemma contains_spec (sub : string) : forall s,
  contains sub s = true
  <-> exists pre post, s = String.append pre (String.append sub post).
Proof.
  induction s as [|c s IH]; cbn [contains].
  - rewrite orb_false_r, prefix_spec. split.
    + intros (post & H). exists EmptyString, post. exact H.
    + intros (pre & post & H). destruct pre; [|discriminate].
      exists post. exact H.
  - rewrite orb_true_iff, prefix_spec, IH. split.
    + intros [(post & H)|(pre & post & H)].
      * exists EmptyString, post. exact H.
      * exists (String c pre), post. rewrite append_String. now rewrite H.
    + intros (pre & post & H). destruct pre as [|d pre].
      * left. exists post. exact H.
      * right. exists pre, post. rewrite append_String in H. congruence.
Qed.

Lemma lower_ascii_idempotent (c : ascii) :
  lower_ascii (lower_ascii c) = lower_ascii c.
Proof.
  destruct c as [[] [] [] [] [] [] [] []]; reflexivity.
Qed.

Lemma lower_idempotent (s : string) : lower (lower s) = lower s.
Proof.
  induction s as [|c s IH]; cbn; [reflexivity|].
  now rewrite lower_ascii_idempotent, IH.
Qed.

End BrowserDetection.

(** X14: a request counts as coming from a browser exactly when its
    [user-agent] header, put in lower case, holds one of the eight
    browser identifiers somewhere inside; so the test does not depend on
    the case of the header, and a request without the header is not a
    browser request. *)
Theorem is_browser_request_spec (ua : string) :
  (Common.is_browser_request (Common.Request (Some ua)) = true
   <-> exists browser_id pre post,
         In browser_id Common.BROWSER_IDENTIFIERS /\
         Py.lower ua = String.append pre (String.append browser_id post)) /\
  Common.is_browser_request (Common.Request (Some (Py.lower ua)))
  = Common.is_browser_request (Common.Request (Some ua)) /\
  Common.is_browser_request (Common.Request None) = false.
Proof.
  split; [|split; [|reflexivity]].
  - unfold Common.is_browser_request.
    cbn -[Py.lower Py.contains existsb Common.BROWSER_IDENTIFIERS].
    rewrite existsb_exists. split.
    + intros (id & Hin & Hc). apply contains_spec in Hc as (pre & post & H).
      exists id, pre, post. auto.
    + intros (id & pre & post & Hin & H). exists id. split; [assumption|].
      apply contains_spec. eauto.
  - unfold Common.is_browser_request.
    cbn -[Py.lower Py.contains existsb Common.BROWSER_IDENTIFIERS].
    now rewrite lower_idempotent.
Qed.

Section HeaderBytes.
Import Py Common.

Lemma create_wave_header_for_engine_none (e : engine) :
  create_wave_header_for_engine e = None <-> ~ wave_rate e.
Proof.
  rewrite create_wave_header_for_engine_eq. unfold wave_rate. split.
  - intros Hn Hr. destruct (wave_header_mono16 _ Hr) as (h & Hh & _). congruence.
  - intros Hr. apply wave_header_mono16_fails. lia.
Qed.

Lemma wave_header_mono16_layout (rate : Z) (h : bytes) :
  wave_header 1 2 rate = Some h ->
  length h = 44 /\
  take 4 h = b "RIFF" /\
  field 4 4 h = 36%Z /\
  take 8 (drop 8 h) = b "WAVEfmt " /\
  field 16 4 h = 16%Z /\
  field 20 2 h = WAVE_FORMAT_PCM /\
  field 28 4 h = (2 * rate)%Z /\
  field 32 2 h = 2%Z /\
  field 34 2 h = 16%Z /\
  take 4 (drop 36 h) = b "data" /\
  field 40 4 h = 0%Z.
Proof.
  intros Hh.
  assert (0 < rate < 2 ^ 31)%Z as Hr.
  { destruct (Z_lt_le_dec 0 rate) as [H0|H0];
      [destruct (Z_lt_le_dec rate (2 ^ 31)) as [H1|H1]; [lia|]|];
      rewrite wave_header_mono16_fails in Hh by lia; discriminate. }
  revert Hh. unfold wave_header, pack_L, pack_H.
  assert ((rate <=? 0)%Z = false) as -> by lia.
  assert (((0 <=? rate) && (rate <? 2 ^ 32))%Z = true) as -> by lia.
  assert (((0 <=? 1 * rate * 2) && (1 * rate * 2 <? 2 ^ 32))%Z = true) as -> by lia.
  cbn -[le_bytes Z.mul Z.pow b]. intros [= <-].
  repeat (split; [reflexivity|]).
  split; [|repeat (split; [reflexivity|]); reflexivity].
  unfold field.
  change (take 4 (drop 28 ?l)) with (le_bytes 4 (1 * rate * 2)).
  rewrite le_value_le_bytes. rewrite Z.mod_small; lia.
Qed.

End HeaderBytes.

(** X15: [create_wave_header_for_engine] raises exactly when the engine
    reports a sample rate that is not positive or is 2^31 or more.
    Otherwise it returns 44 bytes: [RIFF] with a length field of 36,
    [WAVEfmt ] with a 16-byte PCM format block whose byte rate is twice
    the sample rate, with 2 bytes per frame and 16 bits per sample, and a
    [data] block of declared length 0.  The header depends on nothing of
    the engine but its sample rate. *)
Theorem wave_header_layout (e e' : Common.engine) :
  (Common.create_wave_header_for_engine e = None <-> ~ wave_rate e) /\
  (forall h, Common.create_wave_header_for_engine e = Some h ->
     length h = 44 /\
     take 4 h = b "RIFF" /\
     Py.field 4 4 h = 36%Z /\
     take 8 (drop 8 h) = b "WAVEfmt " /\
     Py.field 16 4 h = 16%Z /\
     Py.field 20 2 h = 1%Z /\
     Py.field 28 4 h = (2 * Common.reported_sample_rate e)%Z /\
     Py.field 32 2 h = 2%Z /\
     Py.field 34 2 h = 16%Z /\
     take 4 (drop 36 h) = b "data" /\
     Py.field 40 4 h = 0%Z) /\
  (Common.reported_sample_rate e = Common.reported_sample_rate e' ->
   Common.create_wave_header_for_engine e
   = Common.create_wave_header_for_engine e').
Proof.
  split; [apply create_wave_header_for_engine_none|]. split.
  - intros h Hh. rewrite create_wave_header_for_engine_eq in Hh.
    apply (wave_header_mono16_layout _ _ Hh).
  - intros Hr. rewrite !create_wave_header_for_engine_eq. now rewrite Hr.
Qed.

(** * Engines and voices *)

Section Startup.
Import Py Common Registry.

(** The engines that the start-up loop registers. *)
Lemma startup_engines (environ : gmap string string) (construct : string -> engine) :
  let engines := foldl (initialize_engine environ construct) ∅ SUPPORTED_ENGINES in
  engines !! "azure"
  = (if environ_truthy environ "AZURE_SPEECH_KEY"
        && environ_truthy environ "AZURE_SPEECH_REGION"
     then Some (construct "azure") else None) /\
  engines !! "elevenlabs"
  = (if environ_truthy environ "ELEVENLABS_API_KEY"
     then Some (construct "elevenlabs") else None) /\
  engines !! "openai" = Some (construct "openai") /\
  engines !! "system" = Some (construct "system") /\
  engines !! "coqui" = Some (construct "coqui") /\
  engines !! "kokoro" = Some (construct "kokoro").
Proof.
  cbv zeta. unfold SUPPORTED_ENGINES, initialize_engine. cbn [foldl String.eqb Ascii.eqb Bool.eqb].
  destruct (environ_truthy environ "AZURE_SPEECH_KEY"),
    (environ_truthy environ "AZURE_SPEECH_REGION"),
    (environ_truthy environ "ELEVENLABS_API_KEY"); cbn [andb];
    repeat split; vm_compute; reflexivity.
Qed.

Lemma retrieve_voices_lookup (lib : library) (engines : gmap string engine)
    (key : string) :
  retrieve_voices lib engines !! key
  = (fun _ => default [] (get_voices_of lib key)) <$> engines !! key.
Proof.
  unfold retrieve_voices. rewrite map_lookup_imap.
  destruct (engines !! key); reflexivity.
Qed.

End Startup.

Section RegistryFacts.
Import Py Common Registry.

Ltac run_registry :=
  unfold set_engine, _set_engine, set_voice, get_voices, engines_getitem,
    voices_getitem, set_current_engine, stream_holds, engine_set_voice,
    mbind, M_bind, bind, ret, raise, get, modify in *;
  cbn [engines voices current_engine stream voice fst snd] in *.

Lemma set_engine_known (lib : library) (engine_name : string) (st : state)
    (e : engine) :
  engines st !! engine_name = Some e ->
  let r := set_engine lib engine_name st in
  engines r.2 = engines st /\ voices r.2 = voices st /\
  current_engine r.2 = Some engine_name /\
  (r.1 = error "切换引擎失败" \/
   r.1 = message ("切换到 " ++ engine_name ++ " 引擎") /\
   stream r.2 = Some engine_name /\
   match voices st !! engine_name with
   | Some (first :: _) => voice r.2 !! engine_name = Some first
   | _ => voice r.2 = voice st
   end).
Proof.
  intros He. cbv zeta. run_registry. rewrite He.
  destruct (current_engine st), (stream st), (stream_raises lib engine_name);
    cbn [engines voices current_engine stream voice fst snd];
    rewrite ?He; cbn [engines voices current_engine stream voice fst snd];
    try (repeat split; auto; fail);
    (destruct (voices st !! engine_name) as [[|first vs]|];
     cbn [engines voices current_engine stream voice fst snd];
     rewrite ?He; cbn [engines voices current_engine stream voice fst snd];
     try (repeat split; auto; fail);
     destruct (set_voice_raises lib engine_name first);
     cbn [engines voices current_engine stream voice fst snd];
     repeat split; auto;
     right; repeat split; auto; apply lookup_insert_eq).
Qed.

Lemma set_engine_unknown (lib : library) (engine_name : string) (st : state) :
  engines st !! engine_name = None ->
  set_engine lib engine_name st = (error "引擎不支持", st).
Proof. intros He. unfold set_engine. now rewrite He. Qed.

Lemma set_engine_stream_error (lib : library) (engine_name : string)
    (st : state) (e : engine) :
  engines st !! engine_name = Some e ->
  stream_raises lib engine_name = true ->
  (set_engine lib engine_name st).1 = error "切换引擎失败" /\
  stream (set_engine lib engine_name st).2 = stream st /\
  voice (set_engine lib engine_name st).2 = voice st.
Proof.
  intros He Hr. run_registry. rewrite He.
  destruct (current_engine st) eqn:Hc, (stream st) eqn:Hs;
    cbn [engines voices current_engine stream voice fst snd];
    rewrite ?He, ?Hr;
    cbn [engines voices current_engine stream voice fst snd];
    rewrite ?He, ?Hr;
    cbn [engines voices current_engine stream voice fst snd];
    rewrite ?Hs; repeat split; reflexivity.
Qed.

Lemma startup_run (lib : library) (environ : gmap string string)
    (construct : string -> engine) :
  let r := startup lib environ construct in
  let azure := environ_truthy environ "AZURE_SPEECH_KEY"
               && environ_truthy environ "AZURE_SPEECH_REGION" in
  engines r.2 = foldl (initialize_engine environ construct) ∅ SUPPORTED_ENGINES /\
  voices r.2 = retrieve_voices lib (engines r.2) /\
  (azure = false ->
   r.1 = Raise (KeyError "azure") /\
   current_engine r.2 = None /\ stream r.2 = None) /\
  (azure = true -> stream_raises lib "azure" = true ->
   r.1 = Raise LibraryError /\
   current_engine r.2 = Some "azure" /\ stream r.2 = None) /\
  (azure = true -> stream_raises lib "azure" = false ->
   current_engine r.2 = Some "azure" /\ stream r.2 = Some "azure" /\
   match get_voices_of lib "azure" with
   | Some (first :: _) =>
       if set_voice_raises lib "azure" first
       then r.1 = Raise LibraryError /\ voice r.2 = ∅
       else r.1 = Ok tt /\ voice r.2 !! "azure" = Some first
   | _ => r.1 = Ok tt /\ voice r.2 = ∅
   end).
Proof.
  cbv zeta. unfold startup.
  destruct (startup_engines environ construct) as (Ha & _).
  set (E := foldl (initialize_engine environ construct) ∅ SUPPORTED_ENGINES) in *.
  pose proof (retrieve_voices_lookup lib E "azure") as Hv.
  set (V := retrieve_voices lib E) in *.
  change START_ENGINE with "azure".
  run_registry. rewrite Ha in *.
  destruct (environ_truthy environ "AZURE_SPEECH_KEY"
            && environ_truthy environ "AZURE_SPEECH_REGION").
  - cbn [fmap option_fmap option_map] in Hv.
    cbn [engines voices current_engine stream voice fst snd].
    destruct (stream_raises lib "azure");
      cbn [engines voices current_engine stream voice fst snd].
    + repeat split; try discriminate; auto.
    + rewrite Hv. cbn [engines voices current_engine stream voice fst snd].
      rewrite ?Ha.
      destruct (get_voices_of lib "azure") as [[|first vs]|];
        cbn [default from_option id engines voices current_engine stream voice fst snd];
        rewrite ?Ha;
        cbn [engines voices current_engine stream voice fst snd];
        try (repeat split; try discriminate; auto; fail).
      destruct (set_voice_raises lib "azure" first);
        cbn [engines voices current_engine stream voice fst snd];
        repeat split; try discriminate; auto.
  - cbn [engines voices current_engine stream voice fst snd].
    repeat split; try discriminate; auto.
Qed.

End RegistryFacts.

(** X16: [/set_engine] never changes the registries [engines] and
    [voices].  For a name that is not registered it replies with the
    not-supported error and changes nothing.  For a registered name the
    current engine is that engine afterwards, whether the reply is the
    success message or the failure error; on success the stream holds
    the engine and the engine's voice is the first of its voices, if it
    has any; and when loading the engine into the stream raises, the
    reply is the failure error although the current engine has already
    been switched, while the stream still holds the old engine. *)
Theorem set_engine_effect (lib : Registry.library) (engine_name : string)
    (st : Registry.state) :
  let r := Registry.set_engine lib engine_name st in
  (Registry.engines st !! engine_name = None ->
   r = (Registry.error "引擎不支持", st)) /\
  (forall e, Registry.engines st !! engine_name = Some e ->
     Registry.engines r.2 = Registry.engines st /\
     Registry.voices r.2 = Registry.voices st /\
     Registry.current_engine r.2 = Some engine_name /\
     (r.1 = Registry.error "切换引擎失败" \/
      r.1 = Registry.message ("切换到 " ++ engine_name ++ " 引擎") /\
      Registry.stream r.2 = Some engine_name /\
      match Registry.voices st !! engine_name with
      | Some (first :: _) => Registry.voice r.2 !! engine_name = Some first
      | _ => Registry.voice r.2 = Registry.voice st
      end)) /\
  (forall e, Registry.engines st !! engine_name = Some e ->
     Registry.stream_raises lib engine_name = true ->
     r.1 = Registry.error "切换引擎失败" /\
     Registry.stream r.2 = Registry.stream st /\
     Registry.voice r.2 = Registry.voice st).
Proof.
  cbv zeta. split; [apply set_engine_unknown|]. split.
  - intros e He. exact (set_engine_known lib engine_name st e He).
  - intros e He Hr. exact (set_engine_stream_error lib engine_name st e He Hr).
Qed.

(** X17: the server starts only with Azure credentials: unless both
    [AZURE_SPEECH_KEY] and [AZURE_SPEECH_REGION] are set and not empty,
    [_set_engine(START_ENGINE)] raises a [KeyError] for [azure] and no
    engine is selected, whatever other engines were registered.  With
    both set, and the library not raising, start-up ends with [azure] as
    the current engine, held by the stream, and with its first voice set.
    The voices are retrieved for exactly the registered engines. *)
Theorem startup_needs_azure (lib : Registry.library)
    (environ : gmap string string) (construct : string -> Common.engine) :
  let r := Registry.startup lib environ construct in
  let azure := Registry.environ_truthy environ "AZURE_SPEECH_KEY"
               && Registry.environ_truthy environ "AZURE_SPEECH_REGION" in
  (azure = false ->
   r.1 = Py.Raise (Registry.KeyError "azure") /\
   Registry.current_engine r.2 = None /\ Registry.stream r.2 = None) /\
  (azure = true -> Registry.stream_raises lib "azure" = false ->
   Registry.current_engine r.2 = Some "azure" /\
   Registry.stream r.2 = Some "azure" /\
   match Registry.get_voices_of lib "azure" with
   | Some (first :: _) =>
       if Registry.set_voice_raises lib "azure" first
       then r.1 = Py.Raise Registry.LibraryError
       else r.1 = Py.Ok tt /\ Registry.voice r.2 !! "azure" = Some first
   | _ => r.1 = Py.Ok tt
   end) /\
  (forall key, is_Some (Registry.voices r.2 !! key)
               <-> is_Some (Registry.engines r.2 !! key)) /\
  Registry.engines r.2 !! "system" = Some (construct "system") /\
  (Registry.engines r.2 !! "azure" = None <-> azure = false).
Proof.
  cbv zeta.
  destruct (startup_run lib environ construct) as (HE & HV & H0 & _ & H1).
  destruct (startup_engines environ construct) as (Ha & _ & _ & Hs & _).
  cbv zeta in *. rewrite <- HE in Ha, Hs.
  split; [exact H0|]. split.
  { intros Hz Hr. destruct (H1 Hz Hr) as (Hc & Hst & Hm).
    split; [exact Hc|]. split; [exact Hst|].
    destruct (Registry.get_voices_of lib "azure") as [[|first vs]|]; try tauto.
    destruct (Registry.set_voice_raises lib "azure" first); tauto. }
  split.
  { intros key. rewrite HV, retrieve_voices_lookup.
    destruct (Registry.engines _ !! key); cbn; split; intros [x Hx];
      try discriminate; eauto. }
  split; [exact Hs|].
  rewrite Ha.
  destruct (Registry.environ_truthy environ "AZURE_SPEECH_KEY"
            && Registry.environ_truthy environ "AZURE_SPEECH_REGION");
    split; congruence.
Qed.

(** X18: the endpoints composed.  After a successful [/set_engine] for a
    registered engine that has voices, [/voices] lists the voices
    retrieved for it and its voice is the first of them; [/setvoice]
    then replaces that voice; and a further [/set_engine], even for the
    same engine, puts the first voice back. *)
Theorem set_engine_resets_voice (lib : Registry.library) (engine_name : string)
    (st : Registry.state) (e : Common.engine) (voice_name first : string)
    (vs : list string) :
  Registry.engines st !! engine_name = Some e ->
  Common.engine_name e = engine_name ->
  Registry.voices st !! engine_name = Some (first :: vs) ->
  (Registry.current_engine st = None \/ is_Some (Registry.stream st)) ->
  Registry.stream_raises lib engine_name = false ->
  Registry.set_voice_raises lib engine_name first = false ->
  Registry.set_voice_raises lib engine_name voice_name = false ->
  let st1 := (Registry.set_engine lib engine_name st).2 in
  let st2 := (Registry.set_voice lib voice_name st1).2 in
  let st3 := (Registry.set_engine lib engine_name st2).2 in
  (Registry.set_engine lib engine_name st).1
  = Registry.message ("切换到 " ++ engine_name ++ " 引擎") /\
  Registry.get_voices st1 = (Py.Ok (first :: vs), st1) /\
  Registry.voice st1 !! engine_name = Some first /\
  (Registry.set_voice lib voice_name st1).1
  = Registry.message ("Voice set to " ++ voice_name ++ " successfully") /\
  Registry.voice st2 !! engine_name = Some voice_name /\
  Registry.voice st3 !! engine_name = Some first.
Proof.
  intros He Hn Hv Hs Hr Hf Hvn. cbv zeta.
  unfold Registry.set_engine, Registry._set_engine, Registry.set_voice,
    Registry.get_voices, Registry.engines_getitem, Registry.voices_getitem,
    Registry.set_current_engine, Registry.stream_holds,
    Registry.engine_set_voice, mbind, Py.M_bind, Py.bind, Py.ret, Py.raise,
    Py.get, Py.modify.
  cbn [Registry.engines Registry.voices Registry.current_engine
       Registry.stream Registry.voice fst snd].
  rewrite He.
  destruct Hs as [Hc|[s Hs]].
  - rewrite Hc.
    cbn [Registry.engines Registry.voices Registry.current_engine
         Registry.stream Registry.voice fst snd].
    rewrite ?He, ?Hr, ?Hv, ?Hf, ?Hvn, ?Hn;
    repeat (cbn [Registry.engines Registry.voices Registry.current_engine
                 Registry.stream Registry.voice fst snd];
            rewrite ?He, ?Hr, ?Hv, ?Hf, ?Hvn, ?Hn).
    repeat split; try reflexivity; apply lookup_insert_eq.
  - rewrite Hs. destruct (Registry.current_engine st);
    cbn [Registry.engines Registry.voices Registry.current_engine
         Registry.stream Registry.voice fst snd];
    rewrite ?He, ?Hr, ?Hv, ?Hf, ?Hvn, ?Hn;
    repeat (cbn [Registry.engines Registry.voices Registry.current_engine
                 Registry.stream Registry.voice fst snd];
            rewrite ?He, ?Hr, ?Hv, ?Hf, ?Hvn, ?Hn);
    repeat split; try reflexivity; apply lookup_insert_eq.
Qed.

Lemma set_engine_resets_voice_witness :
  let lib := Registry.Library (fun _ => false) (fun _ _ => false) (fun _ => None) in
  let st := Registry.State {["system" := Common.Engine "system" (1, 2, 22050)%Z]}
                           {["system" := ["David"; "Zira"]]} None None ∅ in
  let st1 := (Registry.set_engine lib "system" st).2 in
  let st2 := (Registry.set_voice lib "Zira" st1).2 in
  let st3 := (Registry.set_engine lib "system" st2).2 in
  (Registry.set_engine lib "system" st).1
  = Registry.message ("切换到 " ++ "system" ++ " 引擎") /\
  Registry.get_voices st1 = (Py.Ok ["David"; "Zira"], st1) /\
  Registry.voice st1 !! "system" = Some "David" /\
  (Registry.set_voice lib "Zira" st1).1
  = Registry.message ("Voice set to " ++ "Zira" ++ " successfully") /\
  Registry.voice st2 !! "system" = Some "Zira" /\
  Registry.voice st3 !! "system" = Some "David".
Proof.
  cbv zeta.
  apply (set_engine_resets_voice
           (Registry.Library (fun _ => false) (fun _ _ => false) (fun _ => None))
           "system"
           (Registry.State {["system" := Common.Engine "system" (1, 2, 22050)%Z]}
                           {["system" := ["David"; "Zira"]]} None None ∅)
           (Common.Engine "system" (1, 2, 22050)%Z) "Zira" "David" ["Zira"]);
    try reflexivity.
  left. reflexivity.
Defined.

(** X19: the edge cases of [/setvoice] and [/voices].  With no engine
    selected [/setvoice] replies with its no-engine error and [/voices]
    raises; when the engine refuses the voice, [/setvoice] replies with
    its failure error; in both cases nothing changes.  Otherwise the
    voice of the current engine, and of no other engine, becomes the one
    asked for, and engine, stream and registries stay as they are. *)
Theorem set_voice_effect (lib : Registry.library) (voice_name : string)
    (st : Registry.state) :
  let r := Registry.set_voice lib voice_name st in
  (Registry.current_engine st = None ->
   r = (Registry.error "No engine is currently selected", st) /\
   Registry.get_voices st = (Py.Raise Registry.AttributeError, st)) /\
  (forall key, Registry.current_engine st = Some key ->
     Registry.set_voice_raises lib key voice_name = true ->
     r = (Registry.error "Failed to set voice", st)) /\
  (forall key, Registry.current_engine st = Some key ->
     Registry.set_voice_raises lib key voice_name = false ->
     r.1 = Registry.message ("Voice set to " ++ voice_name ++ " successfully") /\
     Registry.voice r.2 !! key = Some voice_name /\
     (forall other, other <> key ->
        Registry.voice r.2 !! other = Registry.voice st !! other) /\
     Registry.current_engine r.2 = Some key /\
     Registry.stream r.2 = Registry.stream st /\
     Registry.engines r.2 = Registry.engines st /\
     Registry.voices r.2 = Registry.voices st).
Proof.
  cbv zeta.
  unfold Registry.set_voice, Registry.get_voices, Registry.engine_set_voice,
    mbind, Py.M_bind, Py.bind, Py.raise, Py.get, Py.modify.
  split; [intros ->; split; reflexivity|]. split.
  - intros key Hc Hr. rewrite Hc. cbn iota. rewrite Hr. reflexivity.
  - intros key Hc Hr. rewrite Hc. cbn iota. rewrite Hr.
    cbn [fst snd Registry.voice Registry.current_engine Registry.stream
         Registry.engines Registry.voices].
    split; [reflexivity|]. split; [apply lookup_insert_eq|].
    split; [intros other Hne; apply lookup_insert_ne; congruence|].
    auto.
Qed.

(** * More on async_server.py *)

Section AsyncMore.
Import Py Common AsyncServer.

Lemma async_for_each_run (self : nat) (cs : list bytes) : forall w,
  for_each cs (on_audio_chunk self) w
  = (Ok tt,
     World (semaphore w) (current_engine w)
           (alter (fun h => Handler (engine_of h) (audio_queue h ++ map Some cs)
                                    (speaking h))
                  self (handlers w))
           (threads w) (playing w)
           (trace w ++ map (fun c => EvPut self (Some c)) cs)).
Proof.
  induction cs as [|c cs IH]; intros w.
  - cbn. rewrite app_nil_r. f_equal. destruct w; cbn. f_equal.
    symmetry. apply list_alter_id. intros [e q s]. cbn. now rewrite app_nil_r.
  - cbn [for_each]. unfold mbind, M_bind. unfold bind at 1.
    unfold on_audio_chunk at 1, queue_put, update_handler, mbind, M_bind.
    unfold bind at 1, modify at 1, log at 1, modify at 1.
    cbn [semaphore current_engine handlers threads playing trace].
    rewrite IH.
    cbn [semaphore current_engine handlers threads playing trace].
    f_equal. f_equal.
    + rewrite list_alter_alter_eq.
      apply list_alter_ext; [|reflexivity].
      intros h _. cbn. now rewrite <- app_assoc.
    + now rewrite <- app_assoc.
Qed.

(** A playback that the library runs to the end and reports. *)
Lemma async_playback_run (syn : synthesis) (self : nat) (w : world) :
  play_error syn = None -> reports_stop syn = true ->
  playback syn self w
  = (Ok tt,
     World (semaphore w) (current_engine w)
           (alter (fun h => Handler (engine_of h)
                                    (audio_queue h ++ stream_items (chunks syn) [])
                                    false)
                  self (handlers w))
           (threads w) (playing w)
           (trace w ++ map (fun c => EvPut self (Some c)) (chunks syn)
                   ++ [EvPut self None; EvSpeaking self false])).
Proof.
  intros Hp Hr. unfold playback, mbind, M_bind. unfold bind at 1.
  rewrite async_for_each_run, Hp, Hr.
  unfold on_audio_stream_stop, queue_put, set_speaking, update_handler,
    mbind, M_bind, bind, log, modify.
  cbn -[alter]. f_equal. f_equal.
  - rewrite !list_alter_alter_eq.
    apply list_alter_ext; [|reflexivity].
    intros h _. cbn. unfold stream_items. now rewrite <- app_assoc.
  - rewrite <- !app_assoc. reflexivity.
Qed.

(** The run of the async worker. *)
Lemma async_worker_run (syn : synthesis) (self : nat) (text : string)
    (w : world) :
  play_text_to_speech syn self text w
  = match feed_error syn with
    | Some e =>
        (Raise e,
         World (semaphore w) (current_engine w)
               (alter (fun h => Handler (engine_of h) (audio_queue h) true)
                      self (handlers w))
               (threads w) (playing w)
               (trace w ++ [EvSpeaking self true; EvFeed self text]))
    | None =>
        (Ok tt,
         World (semaphore w) (current_engine w)
               (alter (fun h => Handler (engine_of h) (audio_queue h) true)
                      self (handlers w))
               (threads w) (playing w ++ [(self, syn)])
               (trace w ++ [EvSpeaking self true; EvFeed self text;
                            EvPlayAsync self]))
    end.
Proof.
  unfold play_text_to_speech, stream_feed, stream_play_async, set_speaking,
    update_handler, mbind, M_bind, bind, log, modify.
  cbn. destruct (feed_error syn); cbn; rewrite <- ?app_assoc; reflexivity.
Qed.

End AsyncMore.

(** X20: in [async_server.py] the gate never closes.  In every state the
    server can reach, the permit is free, so every [/tts] request is
    answered with a stream of type [audio/wav] read from a new handler,
    starts a thread for it and leaves the permit free again: the branch
    that skips the thread is never taken, and each request adds a job in
    flight. *)
Theorem async_gate_never_closes (e : Common.engine) (w : AsyncServer.world)
    (req : Common.request) (text : string) :
  AsyncServer.reachable e w ->
  AsyncServer.semaphore w = 1 /\
  exists resp w',
    AsyncServer.tts req text w = (Py.Ok resp, w') /\
    Common.media_type resp = "audio/wav" /\
    Common.body_send_wave_headers resp = Common.is_browser_request req /\
    Common.body_queue resp = length (AsyncServer.handlers w) /\
    AsyncServer.handlers w'
    = AsyncServer.handlers w
        ++ [AsyncServer.Handler (AsyncServer.current_engine w) [] false] /\
    AsyncServer.threads w'
    = AsyncServer.threads w ++ [(Common.body_queue resp, text)] /\
    AsyncServer.semaphore w' = 1 /\
    AsyncServer.in_flight w' = S (AsyncServer.in_flight w).
Proof.
  intros Hreach. pose proof (async_permit_always_free e w Hreach) as Hs.
  split; [exact Hs|].
  rewrite async_tts_lets_in by exact Hs.
  eexists _, _. split; [reflexivity|]. cbn.
  repeat split; try reflexivity.
  unfold AsyncServer.in_flight. cbn. rewrite length_app. cbn. lia.
Qed.

Lemma async_gate_never_closes_witness :
  let w := (AsyncServer.tts browser "one" (AsyncServer.init engine_pcm16)).2 in
  AsyncServer.semaphore w = 1 /\
  exists resp w',
    AsyncServer.tts script "two" w = (Py.Ok resp, w') /\
    Common.media_type resp = "audio/wav" /\
    Common.body_send_wave_headers resp = Common.is_browser_request script /\
    Common.body_queue resp = length (AsyncServer.handlers w) /\
    AsyncServer.handlers w'
    = AsyncServer.handlers w
        ++ [AsyncServer.Handler (AsyncServer.current_engine w) [] false] /\
    AsyncServer.threads w'
    = AsyncServer.threads w ++ [(Common.body_queue resp, "two")] /\
    AsyncServer.semaphore w' = 1 /\
    AsyncServer.in_flight w' = S (AsyncServer.in_flight w).
Proof.
  apply (async_gate_never_closes engine_pcm16
           (AsyncServer.tts browser "one" (AsyncServer.init engine_pcm16)).2
           script "two").
  eapply rtc_l; [apply (AsyncServer.step_tts browser "one") | apply rtc_refl].
Defined.

(** X21: in [async_server.py] a thread whose [feed] raises ends with the
    exception: no playback is set off, nothing is put on the handler's
    queue, not even the sentinel, and the handler's [speaking] flag stays
    [True]; no other handler is touched. *)
Theorem async_feed_error_effect (syn : Common.synthesis) (self : nat)
    (text : string) (w : AsyncServer.world) (h : AsyncServer.handler)
    (e : Py.exn) :
  AsyncServer.handlers w !! self = Some h ->
  Common.feed_error syn = Some e ->
  let r := AsyncServer.play_text_to_speech syn self text w in
  r.1 = Py.Raise e /\
  AsyncServer.handlers r.2 !! self
  = Some (AsyncServer.Handler (AsyncServer.engine_of h)
                              (AsyncServer.audio_queue h) true) /\
  AsyncServer.playing r.2 = AsyncServer.playing w /\
  AsyncServer.threads r.2 = AsyncServer.threads w /\
  AsyncServer.semaphore r.2 = AsyncServer.semaphore w /\
  (forall j, j <> self ->
     AsyncServer.handlers r.2 !! j = AsyncServer.handlers w !! j).
Proof.
  intros Hh Hf. cbv zeta. rewrite async_worker_run, Hf.
  cbn [fst snd AsyncServer.handlers AsyncServer.playing AsyncServer.threads
       AsyncServer.semaphore].
  split; [reflexivity|]. split.
  { rewrite list_lookup_alter_eq, Hh. reflexivity. }
  repeat split; try reflexivity.
  intros j Hj. apply list_lookup_alter_ne. congruence.
Qed.

Lemma async_feed_error_effect_witness :
  let w := (AsyncServer.tts script "hi" (AsyncServer.init engine_pcm16)).2 in
  let r := AsyncServer.play_text_to_speech feed_fails 0 "hi" w in
  r.1 = Py.Raise (Py.Exception "feed failed") /\
  AsyncServer.handlers r.2 !! 0
  = Some (AsyncServer.Handler engine_pcm16 [] true) /\
  AsyncServer.playing r.2 = AsyncServer.playing w /\
  AsyncServer.threads r.2 = AsyncServer.threads w /\
  AsyncServer.semaphore r.2 = AsyncServer.semaphore w /\
  (forall j, j <> 0 ->
     AsyncServer.handlers r.2 !! j = AsyncServer.handlers w !! j).
Proof.
  apply (async_feed_error_effect feed_fails 0 "hi"
           (AsyncServer.tts script "hi" (AsyncServer.init engine_pcm16)).2
           (AsyncServer.Handler engine_pcm16 [] false)
           (Py.Exception "feed failed")); reflexivity.
Defined.

(** X22: a request to the async server whose stream feeds and plays
    without error and reports its stop is streamed whole: once its
    thread and its playback have run, the queue of its handler holds the
    chunks of the engine in order and then the sentinel, the handler is
    marked as not speaking, no other handler was touched, and the
    generator of the response yields exactly the chunks (behind one
    header, for a browser) and ends at the sentinel.  The engine is taken
    to report a sample rate that the [wave] module accepts if the request
    comes from a browser. *)
Theorem async_streams_clean_job (e : Common.engine) (w : AsyncServer.world)
    (req : Common.request) (text : string) (syn : Common.synthesis) :
  AsyncServer.reachable e w ->
  Common.feed_error syn = None -> Common.play_error syn = None ->
  Common.reports_stop syn = true ->
  (Common.is_browser_request req = true ->
   wave_rate (AsyncServer.current_engine w)) ->
  let self := length (AsyncServer.handlers w) in
  let w1 := (AsyncServer.tts req text w).2 in
  let w2 := (AsyncServer.play_text_to_speech syn self text w1).2 in
  let w3 := (AsyncServer.playback syn self w2).2 in
  exists front,
    AsyncServer.handlers w3 !! self
    = Some (AsyncServer.Handler (AsyncServer.current_engine w)
              (stream_items (Common.chunks syn) []) false) /\
    (forall j, j <> self ->
       AsyncServer.handlers w3 !! j = AsyncServer.handlers w !! j) /\
    AsyncServer.audio_chunk_generator
      (AsyncServer.Handler (AsyncServer.current_engine w)
         (stream_items (Common.chunks syn) []) false)
      (Common.is_browser_request req)
    = (front ++ map Common.Chunk (Common.chunks syn), Common.Terminated []) /\
    Forall (fun x => Common.is_header x = true) front /\
    length front <= 1.
Proof.
  intros Hreach Hf Hp Hr Hrate. cbv zeta.
  pose proof (async_permit_always_free e w Hreach) as Hs.
  rewrite async_tts_lets_in by exact Hs. cbn [snd].
  rewrite async_worker_run, Hf. cbn [snd].
  rewrite async_playback_run by assumption.
  cbn [snd AsyncServer.handlers].
  assert (exists h, Common.is_browser_request req = true ->
                    Common.create_wave_header_for_engine
                      (AsyncServer.current_engine w) = Some h) as [h Hh].
  { destruct (Common.is_browser_request req).
    - destruct (create_wave_header_for_engine_ok _ (Hrate eq_refl)) as (h & Hh & _).
      exists h. auto.
    - exists []. discriminate. }
  exists (header_blocks (Common.is_browser_request req) h (Common.chunks syn)).
  split.
  { rewrite !list_lookup_alter_eq, lookup_app_r by lia.
    rewrite Nat.sub_diag. reflexivity. }
  split.
  { intros j Hj. rewrite !list_lookup_alter_ne by congruence.
    destruct (decide (j < length (AsyncServer.handlers w))) as [Hlt|Hge].
    - now rewrite lookup_app_l by exact Hlt.
    - rewrite lookup_app_r by lia.
      rewrite (lookup_ge_None_2 (AsyncServer.handlers w)) by lia.
      destruct (j - length (AsyncServer.handlers w)) as [|k] eqn:Hk; [lia|].
      reflexivity. }
  split.
  { unfold AsyncServer.audio_chunk_generator.
    cbn [AsyncServer.engine_of AsyncServer.audio_queue].
    apply generator_loop_run. exact Hh. }
  apply header_blocks_front.
Qed.

Lemma async_streams_clean_job_witness :
  let w := AsyncServer.init engine_pcm16 in
  let self := length (AsyncServer.handlers w) in
  let w1 := (AsyncServer.tts browser "hi" w).2 in
  let w2 := (AsyncServer.play_text_to_speech plays_two self "hi" w1).2 in
  let w3 := (AsyncServer.playback plays_two self w2).2 in
  exists front,
    AsyncServer.handlers w3 !! self
    = Some (AsyncServer.Handler (AsyncServer.current_engine w)
              (stream_items (Common.chunks plays_two) []) false) /\
    (forall j, j <> self ->
       AsyncServer.handlers w3 !! j = AsyncServer.handlers w !! j) /\
    AsyncServer.audio_chunk_generator
      (AsyncServer.Handler (AsyncServer.current_engine w)
         (stream_items (Common.chunks plays_two) []) false)
      (Common.is_browser_request browser)
    = (front ++ map Common.Chunk (Common.chunks plays_two), Common.Terminated []) /\
    Forall (fun x => Common.is_header x = true) front /\
    length front <= 1.
Proof.
  apply (async_streams_clean_job engine_pcm16 (AsyncServer.init engine_pcm16)
           browser "hi" plays_two); try reflexivity.
  - apply rtc_refl.
  - intros _. unfold wave_rate. vm_compute. split; reflexivity.
Defined.

(** X23: any number of jobs can be in flight in the async server at
    once: for every [n] a state with [n] jobs in flight, one handler for
    each, and the permit free can be reached. *)
Theorem async_any_number_in_flight (e : Common.engine) (n : nat) :
  exists w,
    AsyncServer.reachable e w /\
    AsyncServer.in_flight w = n /\
    length (AsyncServer.handlers w) = n /\
    AsyncServer.semaphore w = 1.
Proof.
  induction n as [|n (w & Hreach & Hn & Hh & Hs)].
  - exists (AsyncServer.init e). repeat split. apply rtc_refl.
  - exists (AsyncServer.tts script "more" w).2. split.
    + eapply rtc_r; [exact Hreach | constructor].
    + rewrite async_tts_lets_in by exact Hs.
      unfold AsyncServer.in_flight in *. cbn. rewrite !length_app. cbn.
      repeat split; lia.
Qed.
